(** * pySecMaster: the price cross validator

    A shallow embedding of [cross_validate] from
    [pySecMaster/cross_validator.py] together with the properties of its
    voting round, of the per-instrument assembly loop and of the
    delete-then-append write back. *)

From Stdlib Require Import QArith Qcanon.
From stdpp Require Import numbers strings list fin_maps gmap.

Local Open Scope Z_scope.

(** ** Python values and exceptions *)

(** An axis label of a pandas object.  The vendor ids on the
    [data_vendor_id] level are integers, the price columns are named by
    strings; Python compares the two kinds as unequal. *)
Inductive label : Type :=
  | LInt (n : Z)
  | LStr (s : string).

#[global] Instance label_eq_dec : EqDecision label.
Proof. solve_decision. Defined.

(** The exceptions that the function can let escape.  [LookupError] is the
    error of a failed subscript, Python's common class of [KeyError] and
    [IndexError]: which of the two [source_weight[0]] raises depends on the
    selection and on the pandas version (a selection without the label 0
    raises [KeyError]; an empty selection raises [IndexError] before pandas
    1.0 and [KeyError] from then on).  [KeyError] is the exception of [xs],
    the one the handler of the function names. *)
Inductive exn : Type :=
  | KeyError
  | LookupError
  | ValueError
  | UnboundLocalError.

#[global] Instance exn_eq_dec : EqDecision exn.
Proof. solve_decision. Defined.

(** A computation either returns or raises. *)
Inductive result (A : Type) : Type :=
  | Ok (a : A)
  | Raise (e : exn).
Arguments Ok {A} a.
Arguments Raise {A} e.

#[global] Instance result_ret : MRet result := λ A a, Ok a.
#[global] Instance result_bind : MBind result := λ A B f m,
  match m with
  | Ok a => f a
  | Raise e => Raise e
  end.

#[global] Instance result_fmap : FMap result := λ A B f m,
  match m with
  | Ok a => Ok (f a)
  | Raise e => Raise e
  end.

Definition is_Ok {A} (r : result A) : Prop := ∃ a, r = Ok a.

(** A price is a float: a number, an infinity or not-a-number.  The finite
    floats are rationals and Python's comparisons on them are the exact
    comparisons of their values, so a finite float is the canonical rational
    it denotes (the two zeros, which compare equal and are one key of a
    dict, are one value). *)
Inductive price : Type :=
  | Num (x : Qc)
  | PInf
  | NInf
  | NaN.

#[global] Instance price_eq_dec : EqDecision price.
Proof. solve_decision. Defined.

(** Python's [a == b] on floats: never true of not-a-number. *)
Definition py_eqb (a b : price) : bool :=
  match a, b with
  | Num x, Num y => bool_decide (x = y)
  | PInf, PInf => true
  | NInf, NInf => true
  | _, _ => false
  end.

(** Python's [a > b] on floats: never true when one side is not-a-number. *)
Definition py_gt (a b : price) : bool :=
  match a, b with
  | Num x, Num y => bool_decide (y < x)%Qc
  | PInf, Num _ => true
  | PInf, NInf => true
  | Num _, NInf => true
  | _, _ => false
  end.

(** A weight is a numpy [int64], as in the frame of the [__main__] block:
    an integer, whose sums wrap around at 2^63. *)
Definition wrap64 (z : Z) : Z := (z + 2 ^ 63) mod 2 ^ 64 - 2 ^ 63.

Definition int64_add (a b : Z) : Z := wrap64 (a + b).

(** ** The weights table *)

(** One row of [weights_df]: the label the row carries in the frame's index
    and its [consensus_weight].  *)
Record weight_row : Type := WeightRow {
  index_label : Z;
  consensus_weight : Z
}.

#[global] Instance weight_row_eq_dec : EqDecision weight_row.
Proof. solve_decision. Defined.

(** [weights_df] holds one row per [data_vendor_id], so it is a finite map
    from the vendor id to that row. *)
Abbreviation weights_table := (gmap Z weight_row).

(** [weights_df.loc[weights_df['data_vendor_id'] == source, 'consensus_weight']]:
    the Series of the rows whose vendor id equals [source]; with one row per
    vendor it has the matching row or none.  A column name never equals a
    vendor id, so its selection is empty (a pandas that refuses to compare
    the column of integers with a string raises [TypeError] here, where the
    model lets the subscript of the empty selection fail: the round ends at
    this candidate either way). *)
Definition loc_consensus_weight (weights_df : weights_table) (source : label)
  : option weight_row :=
  match source with
  | LInt id => weights_df !! id
  | LStr _ => None
  end.

(** [source_weight[0]]: on a Series with an integer index the subscript is a
    label, not a position, so the value is the entry labelled [0]; a
    selection without that label, the empty one too, makes the subscript
    fail. *)
Definition getitem_0 (source_weight : option weight_row) : result Z :=
  match source_weight with
  | Some row =>
      if decide (index_label row = 0) then Ok (consensus_weight row)
      else Raise LookupError
  | None => Raise LookupError
  end.

(** ** The dict of a round *)

(** [field_consensus]: a dict from the reported values to weights, in the
    order in which the keys were inserted, which is the order in which
    [keys()] lists them.  A key is found by [==] (the values that
    [iteritems()] yields are fresh objects, none is the key itself), so a
    not-a-number key is never found again. *)
Abbreviation dict := (list (price * Z)).

(** [d[k]] when [k in d]. *)
Fixpoint dict_get (k : price) (d : dict) : option Z :=
  match d with
  | [] => None
  | (k', v) :: d' => if py_eqb k' k then Some v else dict_get k d'
  end.

(** [d[k] = v]: the entry of the key that equals [k] takes the value, a key
    that is not found is added at the end. *)
Fixpoint dict_set (k : price) (v : Z) (d : dict) : dict :=
  match d with
  | [] => [(k, v)]
  | (k', v') :: d' =>
      if py_eqb k' k then (k', v) :: d' else (k', v') :: dict_set k v d'
  end.

(** ** The voting round for one field of one period *)

Section voter.
Context (source_id_exclude_list : list label) (weights_df : weights_table).

(** The body of the loop over [field_data.iteritems()]. *)
Definition consensus_step (field_consensus : dict)
    (source_data : label * price) : result dict :=
  if decide (source_data.1 ∈ source_id_exclude_list) then Ok field_consensus
  else
    let source_weight := loc_consensus_weight weights_df source_data.1 in
    if decide (field_consensus = []) then
      w ← getitem_0 source_weight;
      Ok (dict_set source_data.2 w field_consensus)
    else
      match dict_get source_data.2 field_consensus with
      | Some acc =>
          w ← getitem_0 source_weight;
          Ok (dict_set source_data.2 (int64_add acc w) field_consensus)
      | None =>
          w ← getitem_0 source_weight;
          Ok (dict_set source_data.2 w field_consensus)
      end.

Fixpoint consensus_loop (field_consensus : dict)
    (field_data : list (label * price)) : result dict :=
  match field_data with
  | [] => Ok field_consensus
  | source_data :: rest =>
      fc ← consensus_step field_consensus source_data;
      consensus_loop fc rest
  end.

(** The support map of a round: the loop run from the empty dict. *)
Definition field_consensus_of (field_data : list (label * price))
  : result dict :=
  consensus_loop [] field_data.

(** [field_consensus.keys()]. *)
Definition keys (field_consensus : dict) : list price :=
  field_consensus.*1.

(** Python's [max] of an iterable: the first item, replaced by every later
    item that is greater; [ValueError] on an empty one. *)
Definition py_max (items : list price) : result price :=
  match items with
  | [] => Raise ValueError
  | x :: rest => Ok (foldl (λ m y, if py_gt y m then y else m) x rest)
  end.

(** Lines 106 to 152: the consensus value of one field. *)
Definition field_vote (field_data : list (label * price)) : result price :=
  fc ← field_consensus_of field_data;
  py_max (keys fc).

End voter.

(** ** Frames *)

(** A two-dimensional frame: row labels, column labels and the values row by
    row.  The values are floats: the frame of a period is read after its
    transposition, which gives the rows one common type, so a volume column
    of integers has become floats by then. *)
Record DataFrame : Type := Frame {
  df_index : list label;
  df_columns : list label;
  df_values : list (list price)
}.

Fixpoint transpose_values (ncols : nat) (values : list (list price))
  : list (list price) :=
  match ncols with
  | O => []
  | S n => omap head values :: transpose_values n (tail <$> values)
  end.

(** [df.transpose()]. *)
Definition transpose (df : DataFrame) : DataFrame :=
  {| df_index := df_columns df;
     df_columns := df_index df;
     df_values := transpose_values (length (df_columns df)) (df_values df) |}.

(** [df.iterrows()]: each row label with the row as a Series, whose
    [iteritems()] are the (column label, value) pairs. *)
Definition iterrows (df : DataFrame) : list (label * list (label * price)) :=
  zip (df_index df) (zip (df_columns df) <$> df_values df).

(** ** The price table *)

(** A row of the price table ([daily_prices], [minute_prices]), with its
    values as the voter reads them (the volume as the float the
    transposition makes of it).  Every row has a date: a row stored
    without one is outside the model. *)
Record price_row : Type := PriceRow {
  r_tsid : string;
  r_date : string;
  r_vendor : Z;
  r_open : price;
  r_high : price;
  r_low : price;
  r_close : price;
  r_volume : price
}.

#[global] Instance price_row_eq_dec : EqDecision price_row.
Proof. solve_decision. Defined.

Definition price_columns : list label :=
  [LStr "open"; LStr "high"; LStr "low"; LStr "close"; LStr "volume"].

Definition row_values (r : price_row) : list price :=
  [r_open r; r_high r; r_low r; r_close r; r_volume r].

(** The values of a level of the index in order of first appearance:
    [get_level_values(..).unique()]. *)
Fixpoint unique {A} `{EqDecision A} (l : list A) : list A :=
  match l with
  | [] => []
  | x :: l' => x :: filter (λ y, y ≠ x) (unique l')
  end.

(** [tsid_prices_df.xs(date, level='date')]: the rows of that period as a
    frame indexed by the vendor id; [KeyError] when the period has none. *)
Definition xs (tsid_prices_df : list price_row) (date : string)
  : result DataFrame :=
  match filter (λ r, r_date r = date) tsid_prices_df with
  | [] => Raise KeyError
  | rows => Ok {| df_index := LInt ∘ r_vendor <$> rows;
                  df_columns := price_columns;
                  df_values := row_values <$> rows |}
  end.

(** ** The consensus frame *)

Fixpoint assoc_get {K V} `{EqDecision K} (k : K) (l : list (K * V)) : option V :=
  match l with
  | [] => None
  | (k', v) :: l' => if decide (k' = k) then Some v else assoc_get k l'
  end.

Fixpoint assoc_set {K V} `{EqDecision K} (k : K) (v : V) (l : list (K * V))
  : list (K * V) :=
  match l with
  | [] => [(k, v)]
  | (k', v') :: l' =>
      if decide (k' = k) then (k, v) :: l' else (k', v') :: assoc_set k v l'
  end.

(** [consensus_price_df]: indexed by the date, each row holding the cells
    that have been set (a cell never set is missing). *)
Abbreviation consensus_frame := (list (string * list (label * price))).

(** [consensus_price_df.ix[date, field_index] = consensus_value]: sets the
    cell, adding the row and the column when they are new. *)
Definition ix_set (date : string) (field_index : label) (consensus_value : price)
    (consensus_price_df : consensus_frame) : consensus_frame :=
  let cells := default [] (assoc_get date consensus_price_df) in
  assoc_set date (assoc_set field_index consensus_value cells) consensus_price_df.

(** ** The assembly loop of one instrument *)

(** What the function prints on a failed extraction (the [verbose]
    diagnostics carry no state and are left out). *)
Inductive event : Type :=
  | UnableToExtract (date tsid : string).

Section assembler.
Context (source_id_exclude_list : list label) (weights_df : weights_table).
Context (tsid : string) (extract : string → result DataFrame).

(** Lines 101 to 153 for one row of the transposed period frame. *)
Definition field_step (date : string) (consensus_price_df : consensus_frame)
    (row : label * list (label * price)) : result consensus_frame :=
  consensus_value ← field_vote source_id_exclude_list weights_df row.2;
  Ok (ix_set date row.1 consensus_value consensus_price_df).

Fixpoint fields_loop (date : string) (consensus_price_df : consensus_frame)
    (rows : list (label * list (label * price))) : result consensus_frame :=
  match rows with
  | [] => Ok consensus_price_df
  | row :: rest =>
      cdf ← field_step date consensus_price_df row;
      fields_loop date cdf rest
  end.

(** Lines 86 to 153, the body of the loop over [unique_dates].  The local
    [period_df] is [None] while unbound.  The [try] binds it on success; on
    [KeyError] the handler prints and leaves it as it was, any other
    exception is re-raised after the [finally] block; the [finally] block
    runs in every case on whatever [period_df] then holds. *)
Definition period_body (period_df : option DataFrame)
    (consensus_price_df : consensus_frame) (date : string)
  : list event * result (option DataFrame * consensus_frame) :=
  let '(period_df, printed, pending) :=
    match extract date with
    | Ok df => (Some df, [], None)
    | Raise KeyError => (period_df, [UnableToExtract date tsid], None)
    | Raise e => (period_df, [], Some e)
    end in
  (printed,
   match period_df with
   | None => Raise UnboundLocalError
   | Some df =>
       let df := transpose df in
       cdf ← fields_loop date consensus_price_df (iterrows df);
       match pending with
       | None => Ok (Some df, cdf)
       | Some e => Raise e
       end
   end).

Fixpoint periods_loop (period_df : option DataFrame)
    (consensus_price_df : consensus_frame) (unique_dates : list string)
  : list event * result (option DataFrame * consensus_frame) :=
  match unique_dates with
  | [] => ([], Ok (period_df, consensus_price_df))
  | date :: rest =>
      match period_body period_df consensus_price_df date with
      | (printed, Ok (period_df', cdf)) =>
          let '(printed', r) := periods_loop period_df' cdf rest in
          (printed ++ printed', r)
      | (printed, Raise e) => (printed, Raise e)
      end
  end.

End assembler.

(** ** The store *)

(** Modelled from the spec: [query_all_tsid_prices], [delete_sql_table_rows]
    and [df_to_sql] live in [utilities.database_queries], whose source is
    missing.  They are the collaborators [fetch_all_observations],
    [delete_rows] and [append_rows] of the specification: the first returns
    every stored row of the instrument, the second removes the rows matching
    the query or fails leaving the table as it was, the third appends rows
    and never overwrites. *)
Definition query_all_tsid_prices (table : list price_row) (tsid : string)
  : list price_row :=
  filter (λ r, r_tsid r = tsid) table.

Definition delete_sql_table_rows (accepted : bool) (table : list price_row)
    (tsid : string) (vendor : Z) : string * list price_row :=
  if accepted
  then ("success"%string,
        filter (λ r, ¬ (r_tsid r = tsid ∧ r_vendor r = vendor)) table)
  else ("failure"%string, table).

(** A row of [consensus_price_df], with the inserted [data_vendor_id] column,
    as a row of the price table of the instrument [item]. *)
Definition consensus_row (item : string) (vendor : Z)
    (row : string * list (label * price)) : option price_row :=
  o ← assoc_get (LStr "open") row.2;
  h ← assoc_get (LStr "high") row.2;
  l ← assoc_get (LStr "low") row.2;
  c ← assoc_get (LStr "close") row.2;
  v ← assoc_get (LStr "volume") row.2;
  Some (PriceRow item row.1 vendor o h l c v).

(** The append: a frame with a row that lacks a price column is not
    inserted. *)
Definition df_to_sql (vendor : Z) (df : consensus_frame)
    (table : list price_row) (item : string) : list price_row :=
  match mapM (consensus_row item vendor) df with
  | Some rows => table ++ rows
  | None => table
  end.

(** ** [cross_validate] *)

Record outcome : Type := Outcome {
  final_table : list price_row;
  printed_events : list event;
  raised : option exn
}.

Section cross_validate.
(** Modelled from the spec: [retrieve_data_vendor_id] is the collaborator
    [resolve_source_identity]; the vendor table is not written by this
    function, so the lookup is a function of the name.  [delete_accepted]
    tells whether the store carries out the delete asked for an instrument
    on a given table. *)
Context (retrieve_data_vendor_id : string → Z).
Context (delete_accepted : list price_row → string → bool).
Context (weights_df : weights_table).

Definition source_exclude_list : list string := ["pySecMaster_Consensus"%string].

(** Lines 51 to 55. *)
Definition source_id_exclude_list : list label :=
  (λ source, LInt (retrieve_data_vendor_id source)) <$> source_exclude_list.

(** Lines 61 to 153: the consensus frame of one instrument.  [period_df] is
    a local of the function, not of the loop: an instrument is entered with
    what the instrument before left in it. *)
Definition assemble_from (period_df : option DataFrame)
    (table : list price_row) (tsid : string)
  : list event * result (option DataFrame * consensus_frame) :=
  let tsid_prices_df := query_all_tsid_prices table tsid in
  let unique_dates := unique (r_date <$> tsid_prices_df) in
  periods_loop source_id_exclude_list weights_df tsid (xs tsid_prices_df)
    period_df [] unique_dates.

(** The consensus frame of the first instrument of a call, which is entered
    with [period_df] unbound. *)
Definition assemble (table : list price_row) (tsid : string)
  : list event * result consensus_frame :=
  let '(printed, r) := assemble_from None table tsid in
  (printed, snd <$> r).

(** Lines 155 to 186: the write back. *)
Definition reconcile (table : list price_row) (tsid : string)
    (consensus_price_df : consensus_frame) : list price_row :=
  let unique_sources := unique (r_vendor <$> query_all_tsid_prices table tsid) in
  let validator_id := retrieve_data_vendor_id "pySecMaster_Consensus" in
  if decide (validator_id ∈ unique_sources) then
    let '(delete_status, table') :=
      delete_sql_table_rows (delete_accepted table tsid) table tsid validator_id in
    if decide (delete_status = "success"%string)
    then df_to_sql validator_id consensus_price_df table' tsid
    else table'
  else df_to_sql validator_id consensus_price_df table tsid.

(** The loop over [tsid_list]; an exception ends the call with the table as
    the instruments before left it. *)
Fixpoint cross_validate_from (period_df : option DataFrame)
    (table : list price_row) (tsid_list : list string) : outcome :=
  match tsid_list with
  | [] => Outcome table [] None
  | tsid :: rest =>
      match assemble_from period_df table tsid with
      | (printed, Ok (period_df', cdf)) =>
          let o := cross_validate_from period_df' (reconcile table tsid cdf) rest in
          Outcome (final_table o) (printed ++ printed_events o) (raised o)
      | (printed, Raise e) => Outcome table printed (Some e)
      end
  end.

(** The call: the loop entered with [period_df] unbound. *)
Definition cross_validate (table : list price_row) (tsid_list : list string)
  : outcome :=
  cross_validate_from None table tsid_list.

End cross_validate.

(** * Definitions used by the statements *)

(** ** The reads, the keys and the order of the values *)

(** The weight the round reads for a source: the selection of its row and
    the entry of the selection labelled 0. *)
Definition read_weight (w : weights_table) (source : label) : result Z :=
  getitem_0 (loc_consensus_weight w source).

(** Python's [a <= b] on floats. *)
Definition py_le (a b : price) : bool :=
  match a, b with
  | Num x, Num y => bool_decide (x ≤ y)%Qc
  | NInf, Num _ => true
  | NInf, PInf => true
  | NInf, NInf => true
  | Num _, PInf => true
  | PInf, PInf => true
  | _, _ => false
  end.

(** A value is the largest key of a dict: it is a key, and every key is
    less than or equal to it. *)
Definition largest_key (d : dict) (v : price) : Prop :=
  v ∈ keys d ∧ ∀ k, k ∈ keys d → py_le k v = true.

(** The keys of a dict after [d[k] = ...]: a key equal to [k] is there
    already, or [k] is added at the end. *)
Definition keys_add (ks : list price) (k : price) : list price :=
  if existsb (λ k', py_eqb k' k) ks then ks else ks ++ [k].

(** ** The voting round in the words of the specification *)

(** Step 1 of the voter: the candidates that are not excluded. *)
Definition surviving (excl : list label) (candidates : list (label * price))
  : list (label * price) :=
  filter (λ sd, sd.1 ∉ excl) candidates.

(** The trust weight the weights table records for a source identity: the
    [consensus_weight] of the row of that vendor (0 stands for a source
    without a row). *)
Definition trust_weight (w : weights_table) (source : label) : Z :=
  match source with
  | LInt id => from_option consensus_weight 0 (w !! id)
  | LStr _ => 0
  end.

Definition Zsum (l : list Z) : Z := foldr Z.add 0 l.

(** Step 2 of the voter: the candidates that reported [v] form its group,
    and a value with a group is mapped to the sum of the weights of the
    group's sources. *)
Definition group (candidates : list (label * price)) (v : price)
  : list (label * price) :=
  filter (λ sd, sd.2 = v) candidates.

Definition support_map_spec (w : weights_table)
    (survivors : list (label * price)) (v : price) : option Z :=
  if decide (group survivors v = []) then None
  else Some (Zsum (trust_weight w <$> (group survivors v).*1)).

(** The same with the arithmetic of the code: the candidates whose value
    equals [v] under Python's [==], and their weights added up as the loop
    adds them, the first one as it is read and each later one with the
    wrap-around of [int64]. *)
Definition py_group (candidates : list (label * price)) (v : price)
  : list (label * price) :=
  filter (λ sd, py_eqb sd.2 v = true) candidates.

Definition int64_sum (acc : option Z) (weights : list Z) : option Z :=
  foldl (λ acc x, Some (from_option (λ a, int64_add a x) x acc)) acc weights.

(** ** The cells of the consensus frame *)

(** The cell of the consensus frame for a date and a field, when it has
    been set. *)
Definition ix_get (date : string) (field_index : label)
    (consensus_price_df : consensus_frame) : option price :=
  cells ← assoc_get date consensus_price_df;
  assoc_get field_index cells.

(** ** The assembly of an instrument as a function of its frame *)

(** The (vendor, value) pairs of one price column of a block of rows. *)
Definition candidates (c : price_row → price) (rows : list price_row)
  : list (label * price) :=
  (λ r, (LInt (r_vendor r), c r)) <$> rows.

(** Running a fallible function over a list, stopping at the first
    exception. *)
Fixpoint traverse {A B} (f : A → result B) (l : list A) : result (list B) :=
  match l with
  | [] => Ok []
  | x :: l' => y ← f x; ys ← traverse f l'; Ok (y :: ys)
  end.

(** The rows of a frame for one period. *)
Definition block (tsid_prices_df : list price_row) (date : string)
  : list price_row :=
  filter (λ r, r_date r = date) tsid_prices_df.

Section frame_summary.
Context (excl : list label) (w : weights_table).

(** The five votes of a period, in the order of the price columns. *)
Definition period_cells (rows : list price_row) : result (list (label * price)) :=
  o ← field_vote excl w (candidates r_open rows);
  h ← field_vote excl w (candidates r_high rows);
  l ← field_vote excl w (candidates r_low rows);
  c ← field_vote excl w (candidates r_close rows);
  v ← field_vote excl w (candidates r_volume rows);
  Ok [(LStr "open", o); (LStr "high", h); (LStr "low", l);
      (LStr "close", c); (LStr "volume", v)].

Definition period_entry (df : list price_row) (date : string)
  : result (string * list (label * price)) :=
  cells ← period_cells (block df date); Ok (date, cells).

End frame_summary.

Section table_summary.
Context (retrieve_data_vendor_id : string → Z).
Context (delete_accepted : list price_row → string → bool).
Context (w : weights_table).

(** The identity of the consensus vendor. *)
Definition validator : Z := retrieve_data_vendor_id "pySecMaster_Consensus".

(** The consensus row of a period, from the rows of its block. *)
Definition period_row (tsid : string) (rows : list price_row) (date : string)
  : result price_row :=
  let excl := source_id_exclude_list retrieve_data_vendor_id in
  o ← field_vote excl w (candidates r_open rows);
  h ← field_vote excl w (candidates r_high rows);
  l ← field_vote excl w (candidates r_low rows);
  c ← field_vote excl w (candidates r_close rows);
  v ← field_vote excl w (candidates r_volume rows);
  Ok (PriceRow tsid date validator o h l c v).

(** The consensus rows of an instrument, from its frame. *)
Definition consensus_rows (tsid : string) (df : list price_row)
  : result (list price_row) :=
  traverse (λ d, period_row tsid (block df d) d) (unique (r_date <$> df)).

(** The table an instrument's iteration leaves, given its consensus rows. *)
Definition write (table : list price_row) (tsid : string)
    (rows : list price_row) : list price_row :=
  if decide (validator ∈ unique (r_vendor <$> query_all_tsid_prices table tsid)) then
    if delete_accepted table tsid
    then filter (λ r, ¬ (r_tsid r = tsid ∧ r_vendor r = validator)) table ++ rows
    else table
  else table ++ rows.

(** The rows of a frame that come from the other vendors. *)
Definition observed (df : list price_row) : list price_row :=
  filter (λ r, r_vendor r ≠ validator) df.

(** The consensus rows a frame holds are the ones its other rows give. *)
Definition settled (tsid : string) (df : list price_row) : Prop :=
  ∃ rows, consensus_rows tsid df = Ok rows ∧
          filter (λ r, r_vendor r = validator) df ≡ₚ rows.

End table_summary.

(** ** Data of the examples *)

Definition q (n : Z) : price := Num (Q2Qc (n # 1)).

(** The weights frame built in the [__main__] block: a default integer
    index, so the rows are labelled 0 and 1. *)
Definition main_weights : weights_table :=
  {[ 1 := WeightRow 0 20; 2 := WeightRow 1 50 ]}.

(** The same weights in a frame whose rows both carry the label 0, as the
    concatenation of two frames of one row each has them. *)
Definition zero_label_weights : weights_table :=
  {[ 1 := WeightRow 0 20; 2 := WeightRow 0 50 ]}.

(** A table in which the only row of instrument A for the period d2 is a
    consensus row written earlier (vendor 9). *)
Definition gap_table : list price_row :=
  [ PriceRow "A" "d1" 1 (q 10) (q 11) (q 9) (q 10) (q 100);
    PriceRow "A" "d2" 9 (q 10) (q 11) (q 9) (q 10) (q 100);
    PriceRow "B" "d1" 1 (q 20) (q 21) (q 19) (q 20) (q 500) ].

(** A table with a consensus row of an earlier run for instrument A. *)
Definition stale_table : list price_row :=
  [ PriceRow "A" "d1" 1 (q 10) (q 11) (q 9) (q 10) (q 100);
    PriceRow "A" "d1" 9 (q 13) (q 14) (q 8) (q 11) (q 120);
    PriceRow "B" "d1" 1 (q 20) (q 21) (q 19) (q 20) (q 500) ].

(** Two vendors and an earlier consensus row for instrument A. *)
Definition sample_table : list price_row :=
  [ PriceRow "A" "d1" 1 (q 10) (q 11) (q 9) (q 10) (q 100);
    PriceRow "A" "d1" 9 (q 13) (q 14) (q 8) (q 11) (q 120);
    PriceRow "A" "d1" 2 (q 12) (q 11) (q 9) (q 10) (q 100);
    PriceRow "A" "d2" 1 (q 10) (q 12) (q 9) (q 11) (q 90);
    PriceRow "B" "d1" 1 (q 20) (q 21) (q 19) (q 20) (q 500) ].

(** * Properties of the voting round *)

Lemma bind_Ok {A B} (m : result A) (f : A → result B) b :
  m ≫= f = Ok b ↔ ∃ a, m = Ok a ∧ f a = Ok b.
Proof.
  destruct m as [a|e]; simpl.
  - split; [eauto | by intros (? & [= ->] & ?)].
  - split; [done | by intros (? & ? & ?)].
Qed.

(** ** Comparisons of floats *)

Lemma py_eqb_eq a b : py_eqb a b = true ↔ a = b ∧ a ≠ NaN.
Proof.
  destruct a, b; simpl; rewrite ?bool_decide_eq_true;
    (split; [intros H; try done; by subst | intros [H ?]; by inversion H]).
Qed.

Lemma py_gt_le a b : py_gt a b = true → py_le b a = true.
Proof.
  destruct a, b; simpl; try done.
  rewrite !bool_decide_eq_true. apply Qclt_le_weak.
Qed.

Lemma py_not_gt_le a b :
  a ≠ NaN → b ≠ NaN → py_gt a b = false → py_le a b = true.
Proof.
  destruct a, b; simpl; try done.
  rewrite bool_decide_eq_false, bool_decide_eq_true. intros _ _.
  apply Qcnot_lt_le.
Qed.

Lemma py_le_refl a : a ≠ NaN → py_le a a = true.
Proof.
  destruct a; simpl; try done. intros _. apply bool_decide_eq_true, Qcle_refl.
Qed.

Lemma py_le_trans a b c : py_le a b = true → py_le b c = true → py_le a c = true.
Proof.
  destruct a, b, c; simpl; try done.
  rewrite !bool_decide_eq_true. apply Qcle_trans.
Qed.

Lemma py_le_antisym a b : py_le a b = true → py_le b a = true → a = b.
Proof.
  destruct a, b; simpl; try done.
  rewrite !bool_decide_eq_true. intros. f_equal. by apply Qcle_antisym.
Qed.

Lemma py_le_not_NaN a b : py_le a b = true → a ≠ NaN ∧ b ≠ NaN.
Proof. by destruct a, b. Qed.

(** ** The dict *)

Lemma dict_get_keys k d :
  dict_get k d = None ↔ existsb (λ k', py_eqb k' k) (keys d) = false.
Proof.
  induction d as [|[k' v'] d IH]; simpl; [done|].
  destruct (py_eqb k' k); simpl; [done | exact IH].
Qed.

Lemma keys_dict_set k v d : keys (dict_set k v d) = keys_add (keys d) k.
Proof.
  unfold keys_add. induction d as [|[k' v'] d IH]; simpl; [done|].
  destruct (py_eqb k' k); simpl; [done|].
  rewrite IH. fold (keys d). by destruct (existsb _ (keys d)).
Qed.

Lemma elem_of_keys_add ks k x : x ∈ keys_add ks k ↔ x ∈ ks ∨ x = k.
Proof.
  unfold keys_add. destruct (existsb _ ks) eqn:Hex.
  - split; [by left|]. intros [?| ->]; [done|].
    apply existsb_exists in Hex as (k' & Hin & [-> _]%py_eqb_eq).
    by apply list_elem_of_In.
  - rewrite elem_of_app, list_elem_of_singleton. done.
Qed.

Lemma elem_of_foldl_keys_add vs : ∀ ks x,
  x ∈ foldl keys_add ks vs ↔ x ∈ ks ∨ x ∈ vs.
Proof.
  induction vs as [|v vs IH]; intros ks x; simpl.
  - rewrite elem_of_nil. tauto.
  - rewrite IH, elem_of_keys_add, elem_of_cons. tauto.
Qed.

Lemma keys_nil (fc : dict) : keys fc = [] ↔ fc = [].
Proof. unfold keys. split; [apply fmap_nil_inv | by intros ->]. Qed.

Section voter_facts.
Context (excl : list label) (w : weights_table).

Lemma consensus_step_excluded fc sd :
  sd.1 ∈ excl → consensus_step excl w fc sd = Ok fc.
Proof. intros H. unfold consensus_step. by rewrite decide_True. Qed.

(** The step of a surviving candidate: the weight is read and the entry of
    the value is set, to the weight or to what it held plus the weight. *)
Lemma consensus_step_read fc sd :
  sd.1 ∉ excl →
  consensus_step excl w fc sd =
    x ← read_weight w sd.1;
    Ok (dict_set sd.2
          (from_option (λ acc, int64_add acc x) x (dict_get sd.2 fc)) fc).
Proof.
  intros H. unfold consensus_step, read_weight. rewrite decide_False by done.
  cbv zeta. destruct (getitem_0 _) as [x|e]; simpl.
  - case_decide as Hfc.
    + by subst fc.
    + by destruct (dict_get sd.2 fc).
  - case_decide; [done|]. by destruct (dict_get sd.2 fc).
Qed.

Lemma consensus_loop_app fc l1 l2 :
  consensus_loop excl w fc (l1 ++ l2) =
    fc' ← consensus_loop excl w fc l1; consensus_loop excl w fc' l2.
Proof.
  revert fc. induction l1 as [|sd l1 IH]; intros fc; simpl; [done|].
  destruct (consensus_step excl w fc sd); simpl; [apply IH | done].
Qed.

Lemma read_weight_raises source e :
  read_weight w source = Raise e → e = LookupError.
Proof.
  unfold read_weight, getitem_0.
  destruct (loc_consensus_weight w source) as [row|]; [|congruence].
  case_decide; congruence.
Qed.

(** The only exception of the loop is the one of a failed weight read. *)
Lemma consensus_loop_raises fc data e :
  consensus_loop excl w fc data = Raise e → e = LookupError.
Proof.
  revert fc. induction data as [|sd data IH]; intros fc; simpl; [done|].
  destruct (decide (sd.1 ∈ excl)) as [Hin|Hout].
  - rewrite consensus_step_excluded by done. simpl. apply IH.
  - rewrite consensus_step_read by done.
    destruct (read_weight w sd.1) as [x|e'] eqn:Hread; simpl; [apply IH|].
    intros [= <-]. by apply read_weight_raises in Hread.
Qed.

(** A surviving candidate whose weight cannot be read makes the loop raise. *)
Lemma consensus_loop_unreadable fc data sd :
  sd ∈ data → sd.1 ∉ excl → ¬ is_Ok (read_weight w sd.1) →
  consensus_loop excl w fc data = Raise LookupError.
Proof.
  intros Hin Hout Hread. revert fc.
  induction data as [|sd' data IH]; intros fc; [by apply elem_of_nil in Hin|].
  simpl. destruct (consensus_step excl w fc sd') as [fc'|e] eqn:Hstep; simpl.
  - apply elem_of_cons in Hin as [<-|Hin]; [|by apply IH].
    rewrite consensus_step_read in Hstep by done.
    apply bind_Ok in Hstep as (x & Hx & _). destruct Hread. by exists x.
  - f_equal. apply (consensus_loop_raises fc [sd']). simpl. by rewrite Hstep.
Qed.

Lemma consensus_loop_Raise_unreadable data : ∀ fc e,
  consensus_loop excl w fc data = Raise e →
  ∃ sd, sd ∈ data ∧ (sd.1 ∉ excl) ∧ (¬ is_Ok (read_weight w sd.1)).
Proof.
  induction data as [|sd data IH]; intros fc e; simpl; [done|].
  destruct (decide (sd.1 ∈ excl)) as [Hin|Hout].
  - rewrite consensus_step_excluded by done. simpl. intros H.
    destruct (IH _ _ H) as (sd' & ? & ? & ?). exists sd'. split; [by right | done].
  - rewrite consensus_step_read by done.
    destruct (read_weight w sd.1) as [x|e'] eqn:Hread; simpl.
    + intros H. destruct (IH _ _ H) as (sd' & ? & ? & ?).
      exists sd'. split; [by right | done].
    + intros _. exists sd. split; [left|]. split; [done|]. intros [x Hx]. congruence.
Qed.

Lemma consensus_loop_Ok_readable data fc fc' :
  consensus_loop excl w fc data = Ok fc' →
  ∀ sd, sd ∈ data → sd.1 ∉ excl → is_Ok (read_weight w sd.1).
Proof.
  intros Hloop sd Hin Hout.
  destruct (read_weight w sd.1) as [x|e] eqn:Hread; [by exists x|].
  rewrite (consensus_loop_unreadable fc data sd) in Hloop; [done..|].
  intros [x Hx]. congruence.
Qed.

(** When every surviving candidate's weight can be read the loop comes to
    its end. *)
Lemma consensus_loop_readable data fc :
  (∀ sd, sd ∈ data → sd.1 ∉ excl → is_Ok (read_weight w sd.1)) →
  is_Ok (consensus_loop excl w fc data).
Proof.
  intros Hread.
  destruct (consensus_loop excl w fc data) as [fc'|e] eqn:Hloop; [by eexists|].
  destruct (consensus_loop_Raise_unreadable _ _ _ Hloop) as (sd & ? & ? & Hno).
  destruct Hno. by apply Hread.
Qed.

(** The excluded candidates leave the dict as it is. *)
Lemma consensus_loop_surviving fc data :
  consensus_loop excl w fc (surviving excl data) = consensus_loop excl w fc data.
Proof.
  unfold surviving. revert fc. induction data as [|sd data IH]; intros fc; [done|].
  destruct (decide (sd.1 ∈ excl)) as [Hin|Hout].
  - rewrite filter_cons_False by (by intros []). simpl.
    rewrite consensus_step_excluded by done. simpl. apply IH.
  - rewrite filter_cons_True by done. simpl.
    destruct (consensus_step excl w fc sd); simpl; [apply IH | done].
Qed.

Lemma field_vote_surviving data :
  field_vote excl w (surviving excl data) = field_vote excl w data.
Proof.
  unfold field_vote, field_consensus_of. by rewrite consensus_loop_surviving.
Qed.

(** The keys of the dict the loop leaves: the values of the surviving
    candidates, each added to the keys in its turn. *)
Lemma consensus_loop_keys data : ∀ fc fc',
  consensus_loop excl w fc data = Ok fc' →
  keys fc' = foldl keys_add (keys fc) (surviving excl data).*2.
Proof.
  unfold surviving.
  induction data as [|sd data IH]; intros fc fc'; simpl; [by intros [= ->]|].
  destruct (decide (sd.1 ∈ excl)) as [Hin|Hout].
  - rewrite consensus_step_excluded by done. simpl.
    rewrite filter_cons_False by (by intros []). apply IH.
  - rewrite consensus_step_read by done.
    destruct (read_weight w sd.1) as [x|e] eqn:Hread; simpl; [|done].
    rewrite filter_cons_True by done. intros Hloop.
    rewrite (IH _ _ Hloop), keys_dict_set. done.
Qed.

(** The keys of the dict of a round that came to its end are the values of
    the surviving candidates. *)
Lemma field_consensus_keys data fc v :
  field_consensus_of excl w data = Ok fc →
  v ∈ keys fc ↔ ∃ sd, sd ∈ data ∧ (sd.1 ∉ excl) ∧ sd.2 = v.
Proof.
  intros Hfc. rewrite (consensus_loop_keys _ _ _ Hfc).
  rewrite elem_of_foldl_keys_add, list_elem_of_fmap. simpl.
  rewrite elem_of_nil. unfold surviving. split.
  - intros [[]|(sd & -> & [? ?]%list_elem_of_filter)]. by exists sd.
  - intros (sd & ? & ? & <-). right. exists sd. split; [done|].
    by apply list_elem_of_filter.
Qed.

End voter_facts.

(** ** The maximum of the keys *)

Lemma foldl_max_elem (x : price) (rest : list price) :
  foldl (λ m y, if py_gt y m then y else m) x rest ∈ x :: rest.
Proof.
  revert x. induction rest as [|z rest IH]; intros x; simpl; [left|].
  specialize (IH (if py_gt z x then z else x)).
  apply elem_of_cons in IH as [->|Hin].
  - destruct (py_gt z x); [right; left | left].
  - right. by right.
Qed.

Lemma foldl_max_ub (x : price) (rest : list price) :
  NaN ∉ x :: rest →
  ∀ y, y ∈ x :: rest →
    py_le y (foldl (λ m y, if py_gt y m then y else m) x rest) = true.
Proof.
  revert x. induction rest as [|z rest IH]; intros x Hnan; simpl.
  - intros y ->%list_elem_of_singleton. apply py_le_refl.
    intros ->. apply Hnan. left.
  - assert (x ≠ NaN ∧ z ≠ NaN ∧ NaN ∉ rest) as (Hx & Hz & Hrest).
    { rewrite !not_elem_of_cons in Hnan. destruct Hnan as (Hx & Hz & Hr).
      split; [by intros -> | split; [by intros -> | done]]. }
    set (m := if py_gt z x then z else x).
    assert (py_le x m = true ∧ py_le z m = true ∧ m ≠ NaN) as (Hxm & Hzm & Hm).
    { unfold m. destruct (py_gt z x) eqn:Hgt.
      - split; [by apply py_gt_le|]. split; [by apply py_le_refl | done].
      - split; [by apply py_le_refl|]. split; [by apply py_not_gt_le | done]. }
    assert (NaN ∉ m :: rest) as Hnan'.
    { rewrite not_elem_of_cons. split; [by intros <- | done]. }
    intros y Hy. apply elem_of_cons in Hy as [->|Hy].
    + eapply py_le_trans; [exact Hxm|]. apply IH; [done | left].
    + apply elem_of_cons in Hy as [->|Hy].
      * eapply py_le_trans; [exact Hzm|]. apply IH; [done | left].
      * apply IH; [done | by right].
Qed.

Lemma py_max_elem items v : py_max items = Ok v → v ∈ items.
Proof.
  destruct items as [|x rest]; simpl; [done|].
  intros [= <-]. apply foldl_max_elem.
Qed.

Lemma py_max_ub items v :
  py_max items = Ok v → NaN ∉ items → ∀ y, y ∈ items → py_le y v = true.
Proof.
  destruct items as [|x rest]; simpl; [done|].
  intros [= <-]. apply foldl_max_ub.
Qed.

Lemma py_max_nonempty items :
  items ≠ [] → ∃ v, py_max items = Ok v.
Proof. destruct items; [done|]. simpl. eauto. Qed.

Lemma py_max_raises items e :
  py_max items = Raise e → items = [] ∧ e = ValueError.
Proof. destruct items; simpl; [by intros [= <-] | done]. Qed.

(** ** The support map when the weights are read *)

Lemma dict_get_set v k x d :
  dict_get v (dict_set k x d) = if py_eqb k v then Some x else dict_get v d.
Proof.
  induction d as [|[k' x'] d IH]; simpl; [done|].
  destruct (py_eqb k' k) eqn:Hk; simpl.
  - apply py_eqb_eq in Hk as [-> ?]. by destruct (py_eqb k v).
  - rewrite IH. destruct (py_eqb k' v) eqn:Hv; [|done].
    destruct (py_eqb k v) eqn:Hkv; [|done].
    apply py_eqb_eq in Hv as [-> ?], Hkv as [-> ?].
    rewrite (proj2 (py_eqb_eq v v)) in Hk; done.
Qed.

Section support.
Context (excl : list label) (w : weights_table).

Lemma read_weight_trust source x :
  read_weight w source = Ok x → trust_weight w source = x.
Proof.
  unfold read_weight, trust_weight, getitem_0. destruct source as [id|s]; simpl.
  - destruct (w !! id) as [row|]; simpl; [|done].
    case_decide; [by intros [= <-] | done].
  - done.
Qed.

(** The loop adds, to what the dict holds already, the weights of each
    group of surviving candidates, each the weight of the row that the
    table has for the source of the candidate. *)
Lemma consensus_loop_support data : ∀ fc,
  (∀ sd, sd ∈ data → sd.1 ∉ excl → is_Ok (read_weight w sd.1)) →
  ∃ fc', consensus_loop excl w fc data = Ok fc' ∧
    ∀ v, dict_get v fc' =
      int64_sum (dict_get v fc)
        (trust_weight w <$> (py_group (surviving excl data) v).*1).
Proof.
  induction data as [|sd data IH]; intros fc Hread.
  - exists fc. done.
  - simpl. destruct (decide (sd.1 ∈ excl)) as [Hin|Hout].
    + rewrite consensus_step_excluded by done. simpl.
      destruct (IH fc) as (fc' & Hloop & Hfc').
      { intros sd' ?. apply Hread. by right. }
      exists fc'. split; [done|]. intros v. rewrite Hfc'.
      unfold surviving. rewrite filter_cons_False; [done|]. by intros [].
    + rewrite consensus_step_read by done.
      destruct (Hread sd) as [x Hx]; [left | done |].
      rewrite Hx. simpl.
      destruct (IH (dict_set sd.2
                      (from_option (λ acc, int64_add acc x) x (dict_get sd.2 fc)) fc))
        as (fc' & Hloop & Hfc').
      { intros sd' ?. apply Hread. by right. }
      exists fc'. split; [done|]. intros v. rewrite Hfc', dict_get_set.
      unfold surviving, py_group. rewrite filter_cons_True by done.
      destruct (py_eqb sd.2 v) eqn:Hv.
      * rewrite filter_cons_True by done. simpl.
        rewrite (read_weight_trust _ _ Hx).
        apply py_eqb_eq in Hv as [-> _]. done.
      * rewrite filter_cons_False by (by rewrite Hv). done.
Qed.

(** The support map of a round in which the weight of every surviving
    candidate is read: a value is mapped to the sum, in [int64], of the
    weights of the sources of the surviving candidates that reported it. *)
Lemma support_map_when_read data :
  (∀ sd, sd ∈ data → sd.1 ∉ excl → is_Ok (read_weight w sd.1)) →
  ∃ fc, field_consensus_of excl w data = Ok fc ∧
    ∀ v, dict_get v fc =
      int64_sum None (trust_weight w <$> (py_group (surviving excl data) v).*1).
Proof. intros Hread. apply (consensus_loop_support data [] Hread). Qed.

End support.

(** The sums are sums of [int64]: two weights of 2^62 behind one value add
    up to -2^63. *)
Lemma weight_sum_wraps_around :
  field_consensus_of []
    {[ 1 := WeightRow 0 (2 ^ 62); 2 := WeightRow 0 (2 ^ 62) ]}
    [(LInt 1, q 10); (LInt 2, q 10)] = Ok [(q 10, - 2 ^ 63)].
Proof. vm_compute. reflexivity. Qed.

(** ** The cells of the consensus frame *)

Lemma assoc_get_set {K V} `{EqDecision K} (k : K) (v : V) (l : list (K * V)) :
  assoc_get k (assoc_set k v l) = Some v.
Proof.
  induction l as [|[k' v'] l IH]; simpl; [by rewrite decide_True|].
  destruct (decide (k' = k)) as [->|Hne]; simpl.
  - by rewrite decide_True.
  - by rewrite decide_False.
Qed.

(** After [consensus_price_df.ix[date, field_index] = consensus_value] the
    cell holds the value. *)
Lemma ix_get_set date field v (cdf : consensus_frame) :
  ix_get date field (ix_set date field v cdf) = Some v.
Proof.
  unfold ix_get, ix_set. rewrite assoc_get_set. simpl. apply assoc_get_set.
Qed.

(** ** Claims about the voting round *)

(** C1, as stated, fails on a value that is not a number: source 1 reports
    NaN, source 2 reports 10.0, both weights are read.  The support map has
    the two keys, and [max] keeps its first item unless a later one is
    greater, which 10.0 is not: the value produced is NaN, and NaN is not
    the largest key (10.0 is not below it). *)
Lemma nan_key_is_selected :
  field_consensus_of [] zero_label_weights [(LInt 1, NaN); (LInt 2, q 10)] =
    Ok [(NaN, 20); (q 10, 50)] ∧
  field_vote [] zero_label_weights [(LInt 1, NaN); (LInt 2, q 10)] = Ok NaN ∧
  ¬ largest_key [(NaN, 20); (q 10, 50)] NaN.
Proof.
  split; [vm_compute; reflexivity|]. split; [vm_compute; reflexivity|].
  intros [_ Hub]. specialize (Hub (q 10)). simpl in Hub.
  assert (q 10 ∈ [NaN; q 10]) as Hin by (right; left).
  specialize (Hub Hin). discriminate.
Qed.

(** C1: when a round has built a support map that is not empty and has no
    key that is not a number, the consensus value is the largest key of
    that map, whatever the weights behind the keys, and it is the value
    that line 153 writes into the cell of the consensus frame for the date
    and the field. *)
Theorem largest_key_is_selected_and_written excl w date
    (cdf : consensus_frame) (row : label * list (label * price)) (fc : dict) :
  field_consensus_of excl w row.2 = Ok fc →
  fc ≠ [] →
  NaN ∉ keys fc →
  ∃ v, field_vote excl w row.2 = Ok v ∧
       largest_key fc v ∧
       field_step excl w date cdf row = Ok (ix_set date row.1 v cdf) ∧
       ix_get date row.1 (ix_set date row.1 v cdf) = Some v.
Proof.
  intros Hfc Hne Hnan.
  destruct (py_max_nonempty (keys fc)) as [v Hv].
  { by rewrite keys_nil. }
  assert (field_vote excl w row.2 = Ok v) as Hvote.
  { unfold field_vote. by rewrite Hfc. }
  exists v. split; [done|]. split; [|split].
  - split; [by apply py_max_elem | by apply py_max_ub].
  - unfold field_step. by rewrite Hvote.
  - apply ix_get_set.
Qed.

(** The candidates of the specification's example, source 1 reporting 10.0
    with weight 20 and source 2 reporting 12.0 with weight 50, on a weights
    frame that lets both weights be read: the support map is
    {10.0: 20, 12.0: 50}, the value produced is 12.0 and the cell of the
    field holds it. *)
Lemma largest_key_example_12 :
  field_consensus_of [] zero_label_weights [(LInt 1, q 10); (LInt 2, q 12)] =
    Ok [(q 10, 20); (q 12, 50)] ∧
  field_vote [] zero_label_weights [(LInt 1, q 10); (LInt 2, q 12)] = Ok (q 12) ∧
  largest_key [(q 10, 20); (q 12, 50)] (q 12) ∧
  field_step [] zero_label_weights "d1" []
    (LStr "close", [(LInt 1, q 10); (LInt 2, q 12)]) =
    Ok [("d1"%string, [(LStr "close", q 12)])] ∧
  ix_get "d1" (LStr "close") [("d1"%string, [(LStr "close", q 12)])] = Some (q 12).
Proof.
  destruct (largest_key_is_selected_and_written [] zero_label_weights "d1" []
              (LStr "close", [(LInt 1, q 10); (LInt 2, q 12)])
              [(q 10, 20); (q 12, 50)])
    as (v & Hv & Hlargest & Hstep & Hcell).
  { vm_compute. reflexivity. }
  { discriminate. }
  { vm_compute. intros Hin.
    repeat (apply elem_of_cons in Hin as [Hin|Hin]; [discriminate|]).
    by apply elem_of_nil in Hin. }
  assert (v = q 12) as ->.
  { vm_compute in Hv. injection Hv as <-. reflexivity. }
  split; [vm_compute; reflexivity|].
  split; [exact Hv|]. split; [exact Hlargest|]. split; [exact Hstep | exact Hcell].
Defined.

(** C5: the excluded candidates contribute nothing: the round run on the
    surviving candidates alone gives the same support map, and the same
    consensus value, as the round run on all the candidates. *)
Theorem excluded_candidates_contribute_nothing excl w data :
  field_consensus_of excl w (surviving excl data) = field_consensus_of excl w data ∧
  field_vote excl w (surviving excl data) = field_vote excl w data.
Proof.
  split; [apply consensus_loop_surviving | apply field_vote_surviving].
Qed.

(** C8: a source that takes part in a round, is not excluded and has no row
    in the weights table makes the round raise the error of the failed
    subscript: no support map and no consensus value come out of it. *)
Theorem missing_weight_raises excl w data (id : Z) (v : price) :
  (LInt id, v) ∈ data →
  LInt id ∉ excl →
  w !! id = None →
  field_consensus_of excl w data = Raise LookupError ∧
  field_vote excl w data = Raise LookupError.
Proof.
  intros Hin Hout Hnone.
  assert (field_consensus_of excl w data = Raise LookupError) as Hfc.
  { apply (consensus_loop_unreadable excl w [] data (LInt id, v)); [done..|].
    intros [x Hx]. unfold read_weight in Hx. simpl in Hx. by rewrite Hnone in Hx. }
  split; [done|]. unfold field_vote. by rewrite Hfc.
Qed.

Lemma missing_weight_raises_witness :
  field_consensus_of [] main_weights [(LInt 1, q 10); (LInt 3, q 10)] = Raise LookupError ∧
  field_vote [] main_weights [(LInt 1, q 10); (LInt 3, q 10)] = Raise LookupError.
Proof.
  apply (missing_weight_raises [] main_weights _ 3 (q 10)).
  - right. left.
  - apply not_elem_of_nil.
  - reflexivity.
Defined.

(** C9: on the weights frame of the [__main__] block the support map the
    claim describes, 10.0 with the weight 20 of source 1 and 12.0 with the
    weight 50 of source 2, is not built: the weight of source 1 is read,
    the read for source 2 fails because its row carries the label 1, and
    the round ends there. *)
Theorem support_map_is_not_built_on_the_main_frame :
  support_map_spec main_weights [(LInt 1, q 10); (LInt 2, q 12)] (q 10) = Some 20 ∧
  support_map_spec main_weights [(LInt 1, q 10); (LInt 2, q 12)] (q 12) = Some 50 ∧
  read_weight main_weights (LInt 1) = Ok 20 ∧
  read_weight main_weights (LInt 2) = Raise LookupError ∧
  field_consensus_of [] main_weights [(LInt 1, q 10); (LInt 2, q 12)] =
    Raise LookupError.
Proof. repeat split; vm_compute; reflexivity. Qed.

(** C10: two weights tables that both let every surviving candidate's
    weight be read give the same outcome of the vote; the value selected
    does not depend on the weights. *)
Theorem winner_independent_of_weights excl w1 w2 data :
  (∀ sd, sd ∈ data → sd.1 ∉ excl → is_Ok (read_weight w1 sd.1)) →
  (∀ sd, sd ∈ data → sd.1 ∉ excl → is_Ok (read_weight w2 sd.1)) →
  field_vote excl w1 data = field_vote excl w2 data.
Proof.
  intros H1 H2. unfold field_vote, field_consensus_of.
  destruct (consensus_loop_readable excl w1 data [] H1) as [fc1 Hfc1].
  destruct (consensus_loop_readable excl w2 data [] H2) as [fc2 Hfc2].
  rewrite Hfc1, Hfc2. simpl.
  by rewrite (consensus_loop_keys _ _ _ _ _ Hfc1), (consensus_loop_keys _ _ _ _ _ Hfc2).
Qed.

Lemma winner_independent_of_weights_witness :
  field_vote [LInt 9] zero_label_weights
    [(LInt 1, q 10); (LInt 9, q 30); (LInt 2, q 12)] =
  field_vote [LInt 9] {[ 1 := WeightRow 0 7; 2 := WeightRow 0 3 ]}
    [(LInt 1, q 10); (LInt 9, q 30); (LInt 2, q 12)].
Proof.
  apply winner_independent_of_weights; intros sd Hin Hout;
    (repeat (apply elem_of_cons in Hin as [->|Hin]);
     [by eexists | | by eexists | by apply elem_of_nil in Hin];
     destruct Hout; simpl; left).
Defined.

(** A round whose candidates are all excluded ends in the [ValueError] of
    [max] on an empty sequence. *)
Lemma all_excluded_raises excl w data :
  (∀ sd, sd ∈ data → sd.1 ∈ excl) →
  field_consensus_of excl w data = Ok [] ∧
  field_vote excl w data = Raise ValueError.
Proof.
  intros Hall.
  assert (field_consensus_of excl w data = Ok []) as Hfc.
  { unfold field_consensus_of. generalize (@nil (price * Z)).
    induction data as [|sd data IH]; intros fc; [done|]. simpl.
    rewrite consensus_step_excluded by (apply Hall; left). simpl.
    apply IH. intros sd' ?. apply Hall. by right. }
  split; [done|]. unfold field_vote. by rewrite Hfc.
Qed.

(** C4: on a period whose candidates are all excluded the support map is
    empty and no value is produced, but the way this reaches the caller is
    the [ValueError] of [max]: it ends the whole call, the table is left as
    it was and the instruments that follow are not processed. *)
Theorem empty_support_map_raises :
  field_consensus_of [LInt 9] main_weights [(LInt 9, q 10)] = Ok [] ∧
  field_vote [LInt 9] main_weights [(LInt 9, q 10)] = Raise ValueError ∧
  cross_validate (λ _, 9) (λ _ _, true) main_weights gap_table ["A"; "B"]%string =
    Outcome gap_table [] (Some ValueError).
Proof.
  split; [|split].
  - apply all_excluded_raises. intros sd ->%list_elem_of_singleton. left.
  - apply all_excluded_raises. intros sd ->%list_elem_of_singleton. left.
  - vm_compute. reflexivity.
Qed.

(** * The assembly loop *)

(** C7: a period whose extraction raises [KeyError] is reported, but the
    [finally] block then goes on with [period_df]: unbound on the first
    period, which ends the instrument (and the call) in [UnboundLocalError]
    with the periods that follow left out; on a later period still bound to
    the transposed block of the period before, which is transposed back and
    gone through as if it were the block of this period. *)
Theorem failed_extraction_is_not_skipped :
  periods_loop [LInt 9] zero_label_weights "A" (λ _, Raise KeyError) None []
    ["d1"; "d2"]%string =
    ([UnableToExtract "d1" "A"], Raise UnboundLocalError) ∧
  periods_loop [LInt 9] zero_label_weights "A"
    (λ date, if decide (date = "d1"%string)
             then xs [PriceRow "A" "d1" 1 (q 10) (q 11) (q 9) (q 10) (q 100)] date
             else Raise KeyError)
    None [] ["d1"; "d2"; "d3"]%string =
    ([UnableToExtract "d2" "A"], Raise LookupError).
Proof. split; vm_compute; reflexivity. Qed.

Section assembler_facts.
Context (excl : list label) (w : weights_table) (tsid : string).
Context (extract : string → result DataFrame).

(** The same holds whatever the instrument and the periods are. *)
Lemma first_period_unbound cdf date rest :
  extract date = Raise KeyError →
  periods_loop excl w tsid extract None cdf (date :: rest) =
    ([UnableToExtract date tsid], Raise UnboundLocalError).
Proof. intros H. simpl. unfold period_body. by rewrite H. Qed.

(** On a later period the fields that are gone through are the rows of the
    frame the period before left, transposed once more, and what they give
    is written under the date of the period that could not be extracted. *)
Lemma stale_block_is_processed pdf cdf date :
  extract date = Raise KeyError →
  period_body excl w tsid extract (Some pdf) cdf date =
    ([UnableToExtract date tsid],
     cdf' ← fields_loop excl w date cdf (iterrows (transpose pdf));
     Ok (Some (transpose pdf), cdf')).
Proof.
  intros H. unfold period_body. rewrite H.
  by destruct (fields_loop _ _ _ _ _).
Qed.

End assembler_facts.

(** ** Frames of a period *)

Lemma omap_head_cons {A} (f : A → price) (g : A → list price) (rows : list A) :
  omap head ((λ r, f r :: g r) <$> rows) = f <$> rows.
Proof. induction rows as [|r rows IH]; [done|]. simpl. f_equal. exact IH. Qed.

Lemma tail_cons_fmap {A} (f : A → price) (g : A → list price) (rows : list A) :
  tail <$> ((λ r, f r :: g r) <$> rows) = g <$> rows.
Proof. induction rows as [|r rows IH]; [done|]. simpl. f_equal. exact IH. Qed.

Lemma zip_vendor_column (c : price_row → price) rows :
  zip (LInt ∘ r_vendor <$> rows) (c <$> rows) = candidates c rows.
Proof. induction rows as [|r rows IH]; [done|]. simpl. f_equal. exact IH. Qed.

Lemma iterrows_transpose_block rows :
  iterrows (transpose {| df_index := LInt ∘ r_vendor <$> rows;
                         df_columns := price_columns;
                         df_values := row_values <$> rows |}) =
    [ (LStr "open", candidates r_open rows);
      (LStr "high", candidates r_high rows);
      (LStr "low", candidates r_low rows);
      (LStr "close", candidates r_close rows);
      (LStr "volume", candidates r_volume rows) ].
Proof.
  unfold iterrows, transpose, row_values. simpl.
  rewrite (omap_head_cons r_open), (tail_cons_fmap r_open).
  rewrite (omap_head_cons r_high), (tail_cons_fmap r_high).
  rewrite (omap_head_cons r_low), (tail_cons_fmap r_low).
  rewrite (omap_head_cons r_close), (tail_cons_fmap r_close).
  rewrite (omap_head_cons r_volume (λ _, [])).
  by rewrite !zip_vendor_column.
Qed.

(** ** The consensus frame as a list of entries *)

Lemma assoc_get_fresh {K V} `{EqDecision K} (k : K) (l : list (K * V)) :
  k ∉ l.*1 → assoc_get k l = None.
Proof.
  induction l as [|[k' v'] l IH]; simpl; [done|]. intros Hk.
  apply not_elem_of_cons in Hk as [Hne Hk]. rewrite decide_False by done. auto.
Qed.

Lemma assoc_set_fresh {K V} `{EqDecision K} (k : K) (v : V) (l : list (K * V)) :
  k ∉ l.*1 → assoc_set k v l = l ++ [(k, v)].
Proof.
  induction l as [|[k' v'] l IH]; simpl; [done|]. intros Hk.
  apply not_elem_of_cons in Hk as [Hne Hk]. rewrite decide_False by done.
  by rewrite IH.
Qed.

Lemma assoc_get_last {K V} `{EqDecision K} (k : K) (v : V) (l : list (K * V)) :
  k ∉ l.*1 → assoc_get k (l ++ [(k, v)]) = Some v.
Proof.
  induction l as [|[k' v'] l IH]; simpl; [by rewrite decide_True|]. intros Hk.
  apply not_elem_of_cons in Hk as [Hne Hk]. rewrite decide_False by done. auto.
Qed.

Lemma assoc_set_last {K V} `{EqDecision K} (k : K) (v v' : V) (l : list (K * V)) :
  k ∉ l.*1 → assoc_set k v' (l ++ [(k, v)]) = l ++ [(k, v')].
Proof.
  induction l as [|[k' v''] l IH]; simpl; [by rewrite decide_True|]. intros Hk.
  apply not_elem_of_cons in Hk as [Hne Hk]. rewrite decide_False by done.
  by rewrite IH.
Qed.

Lemma ix_set_fresh date field v (cdf : consensus_frame) :
  date ∉ cdf.*1 → ix_set date field v cdf = cdf ++ [(date, [(field, v)])].
Proof.
  intros Hd. unfold ix_set. rewrite assoc_get_fresh by done. simpl.
  by apply assoc_set_fresh.
Qed.

Lemma ix_set_last date field v cells (cdf : consensus_frame) :
  date ∉ cdf.*1 →
  ix_set date field v (cdf ++ [(date, cells)]) =
    cdf ++ [(date, assoc_set field v cells)].
Proof.
  intros Hd. unfold ix_set. rewrite assoc_get_last by done. simpl.
  by apply assoc_set_last.
Qed.

Section table_assembly.
Context (excl : list label) (w : weights_table) (tsid : string).

Lemma fields_loop_block date (cdf : consensus_frame) rows :
  date ∉ cdf.*1 →
  fields_loop excl w date cdf
    [ (LStr "open", candidates r_open rows);
      (LStr "high", candidates r_high rows);
      (LStr "low", candidates r_low rows);
      (LStr "close", candidates r_close rows);
      (LStr "volume", candidates r_volume rows) ] =
    cells ← period_cells excl w rows; Ok (cdf ++ [(date, cells)]).
Proof.
  intros Hd. unfold period_cells. simpl. unfold field_step. simpl.
  destruct (field_vote excl w (candidates r_open rows)) as [o|]; [|done]. simpl.
  rewrite ix_set_fresh by done.
  destruct (field_vote excl w (candidates r_high rows)) as [h|]; [|done]. simpl.
  rewrite ix_set_last by done.
  destruct (field_vote excl w (candidates r_low rows)) as [l|]; [|done]. simpl.
  rewrite ix_set_last by done.
  destruct (field_vote excl w (candidates r_close rows)) as [c|]; [|done]. simpl.
  rewrite ix_set_last by done.
  destruct (field_vote excl w (candidates r_volume rows)) as [v|]; [|done]. simpl.
  rewrite ix_set_last by done.
  reflexivity.
Qed.

Lemma period_body_table df pdf (cdf : consensus_frame) date :
  block df date ≠ [] → date ∉ cdf.*1 →
  ∃ pdf',
    period_body excl w tsid (xs df) pdf cdf date =
      ([], e ← period_entry excl w df date; Ok (Some pdf', cdf ++ [e])).
Proof.
  intros Hb Hd. unfold period_body, xs. fold (block df date).
  destruct (block df date) as [|r rows] eqn:Hblock; [done|].
  eexists. rewrite iterrows_transpose_block, fields_loop_block by done.
  unfold period_entry. rewrite Hblock.
  destruct (period_cells excl w (r :: rows)); simpl; reflexivity.
Qed.

(** On the frame of an instrument the extraction never fails, nothing is
    printed, and the loop over the periods adds one entry per period. *)
Lemma periods_loop_table df dates : ∀ pdf (cdf : consensus_frame),
  NoDup dates →
  (∀ d, d ∈ dates → block df d ≠ []) →
  (∀ d, d ∈ dates → d ∉ cdf.*1) →
  ∃ pdf',
    periods_loop excl w tsid (xs df) pdf cdf dates =
      ([], es ← traverse (period_entry excl w df) dates; Ok (pdf', cdf ++ es)).
Proof.
  induction dates as [|d dates IH]; intros pdf cdf Hnd Hb Hfresh.
  - exists pdf. simpl. by rewrite app_nil_r.
  - apply NoDup_cons in Hnd as [Hd Hnd]. simpl.
    destruct (period_body_table df pdf cdf d) as (pdf1 & ->);
      [apply Hb; left | apply Hfresh; left |].
    destruct (period_entry excl w df d) as [e|ex] eqn:He; simpl;
      [|by exists None].
    destruct (IH (Some pdf1) (cdf ++ [e])) as (pdf' & ->);
      [done | intros; apply Hb; by right | |].
    + intros d' Hd'. rewrite fmap_app, elem_of_app. intros [Hin|Hin].
      * revert Hin. apply Hfresh. by right.
      * unfold period_entry in He. apply bind_Ok in He as (cells & _ & [= <-]).
        simpl in Hin. apply list_elem_of_singleton in Hin as ->. done.
    + exists pdf'.
      destruct (traverse (period_entry excl w df) dates); simpl; [|done].
      by rewrite <-app_assoc.
Qed.

End table_assembly.

(** * The write back *)

Lemma filter_none {A} (P : A → Prop) `{∀ x, Decision (P x)} (l : list A) :
  Forall (λ x, ¬ P x) l → filter P l = [].
Proof.
  induction 1 as [|x l Hx _ IH]; [done|]. by rewrite filter_cons_False.
Qed.

Lemma filter_all {A} (P : A → Prop) `{∀ x, Decision (P x)} (l : list A) :
  Forall P l → filter P l = l.
Proof.
  induction 1 as [|x l Hx _ IH]; [done|]. rewrite filter_cons_True by done.
  by rewrite IH.
Qed.

Lemma unique_elem_of {A} `{EqDecision A} (l : list A) x : x ∈ unique l ↔ x ∈ l.
Proof.
  induction l as [|y l IH]; simpl; [done|].
  rewrite !elem_of_cons, list_elem_of_filter, IH.
  destruct (decide (x = y)) as [->|Hne]; [tauto|]. split.
  - intros [?|[_ ?]]; auto.
  - intros [?|?]; auto.
Qed.

Lemma unique_NoDup {A} `{EqDecision A} (l : list A) : NoDup (unique l).
Proof.
  induction l as [|y l IH]; simpl; [constructor|].
  apply NoDup_cons. split.
  - rewrite list_elem_of_filter. by intros [? _].
  - by apply NoDup_filter.
Qed.

Lemma traverse_Ok_elem {A B} (f : A → result B) l ys x :
  traverse f l = Ok ys → x ∈ l → ∃ y, f x = Ok y ∧ y ∈ ys.
Proof.
  revert ys. induction l as [|a l IH]; intros ys Hl Hx; [by apply elem_of_nil in Hx|].
  simpl in Hl. apply bind_Ok in Hl as (y & Hy & Hl).
  apply bind_Ok in Hl as (ys' & Hys' & [= <-]).
  apply elem_of_cons in Hx as [->|Hx].
  - exists y. split; [done | left].
  - destruct (IH _ Hys' Hx) as (y' & ? & ?). exists y'. split; [done | by right].
Qed.

Lemma traverse_ext {A B} (f g : A → result B) l :
  (∀ x, x ∈ l → f x = g x) → traverse f l = traverse g l.
Proof.
  induction l as [|a l IH]; intros Hfg; simpl; [done|].
  rewrite (Hfg a) by left. rewrite IH; [done|]. intros; apply Hfg; by right.
Qed.

(** A traversal that succeeds on a list succeeds on every rearrangement of
    it, with the results rearranged. *)
Lemma traverse_Permutation {A B} (f : A → result B) l l' ys :
  l ≡ₚ l' → traverse f l = Ok ys →
  ∃ ys', traverse f l' = Ok ys' ∧ ys ≡ₚ ys'.
Proof.
  intros Hp. revert ys. induction Hp as [|x l l' Hp IH|x y l|l l' l'' Hp1 IH1 Hp2 IH2];
    intros ys Hl; simpl in *.
  - exists ys. done.
  - apply bind_Ok in Hl as (z & Hz & Hl).
    apply bind_Ok in Hl as (zs & Hzs & [= <-]).
    destruct (IH _ Hzs) as (zs' & -> & ?). rewrite Hz. simpl.
    exists (z :: zs'). split; [done|]. by constructor.
  - apply bind_Ok in Hl as (z1 & Hz1 & Hl).
    apply bind_Ok in Hl as (zs & Hl & [= <-]).
    apply bind_Ok in Hl as (z2 & Hz2 & Hl).
    apply bind_Ok in Hl as (zs' & -> & [= <-]).
    rewrite Hz1, Hz2. simpl. eexists. split; [done|]. apply Permutation_swap.
  - destruct (IH1 _ Hl) as (ys' & Hys' & ?).
    destruct (IH2 _ Hys') as (ys'' & ? & ?).
    exists ys''. split; [done|]. by etrans.
Qed.

Section write_back.
Context (retrieve_data_vendor_id : string → Z) (w : weights_table).

Local Abbreviation V := (validator retrieve_data_vendor_id).
Local Abbreviation excl := (source_id_exclude_list retrieve_data_vendor_id).

Lemma period_entry_row tsid df d :
  match period_entry excl w df d with
  | Ok e => ∃ row, period_row retrieve_data_vendor_id w tsid (block df d) d = Ok row ∧
                   consensus_row tsid V e = Some row
  | Raise ex => period_row retrieve_data_vendor_id w tsid (block df d) d = Raise ex
  end.
Proof.
  unfold period_entry, period_cells, period_row.
  destruct (field_vote excl w (candidates r_open _)); simpl; [|done].
  destruct (field_vote excl w (candidates r_high _)); simpl; [|done].
  destruct (field_vote excl w (candidates r_low _)); simpl; [|done].
  destruct (field_vote excl w (candidates r_close _)); simpl; [|done].
  destruct (field_vote excl w (candidates r_volume _)); simpl; [|done].
  eexists. split; reflexivity.
Qed.

Lemma traverse_entries_rows tsid df dates :
  match traverse (period_entry excl w df) dates with
  | Ok es => ∃ rows,
      traverse (λ d, period_row retrieve_data_vendor_id w tsid (block df d) d) dates = Ok rows ∧
      mapM (consensus_row tsid V) es = Some rows
  | Raise ex => traverse (λ d, period_row retrieve_data_vendor_id w tsid (block df d) d) dates = Raise ex
  end.
Proof.
  induction dates as [|d dates IH]; simpl; [by exists []|].
  pose proof (period_entry_row tsid df d) as Hd.
  destruct (period_entry excl w df d) as [e|ex]; simpl.
  - destruct Hd as (row & -> & Hrow). simpl.
    destruct (traverse (period_entry excl w df) dates) as [es|ex]; simpl.
    + destruct IH as (rows & -> & Hrows). simpl. exists (row :: rows).
      split; [done|]. by rewrite Hrow, Hrows.
    + by rewrite IH.
  - by rewrite Hd.
Qed.

(** The periods listed for an instrument have rows in its frame. *)
Lemma listed_period_has_rows (df : list price_row) d :
  d ∈ unique (r_date <$> df) → block df d ≠ [].
Proof.
  intros Hd. apply unique_elem_of, list_elem_of_fmap in Hd as (r & -> & Hr).
  intros Hnil. assert (r ∈ block df (r_date r)) as Hin.
  { by apply list_elem_of_filter. }
  rewrite Hnil in Hin. by apply elem_of_nil in Hin.
Qed.

(** What the assembly of an instrument computes, whatever [period_df] holds
    when the instrument is entered: nothing is printed, and the frame is
    made of the entries of the periods or the call raises as they do. *)
Lemma assemble_from_periods pdf table tsid :
  ∃ pdf',
    assemble_from retrieve_data_vendor_id w pdf table tsid =
      ([], es ← traverse (period_entry excl w (query_all_tsid_prices table tsid))
                  (unique (r_date <$> query_all_tsid_prices table tsid));
           Ok (pdf', es)).
Proof.
  unfold assemble_from. cbv zeta.
  set (df := query_all_tsid_prices table tsid).
  destruct (periods_loop_table excl w tsid df (unique (r_date <$> df)) pdf [])
    as (pdf' & ->).
  - apply unique_NoDup.
  - intros d. apply listed_period_has_rows.
  - intros d _. apply not_elem_of_nil.
  - exists pdf'. by destruct (traverse _ _).
Qed.

(** The frame holds the consensus rows of the instrument. *)
Lemma assemble_from_table pdf table tsid :
  match consensus_rows retrieve_data_vendor_id w tsid (query_all_tsid_prices table tsid) with
  | Ok rows => ∃ pdf' cdf,
      assemble_from retrieve_data_vendor_id w pdf table tsid = ([], Ok (pdf', cdf)) ∧
      ∀ table', df_to_sql V cdf table' tsid = table' ++ rows
  | Raise ex => assemble_from retrieve_data_vendor_id w pdf table tsid = ([], Raise ex)
  end.
Proof.
  destruct (assemble_from_periods pdf table tsid) as (pdf' & ->).
  unfold consensus_rows.
  set (df := query_all_tsid_prices table tsid).
  pose proof (traverse_entries_rows tsid df (unique (r_date <$> df))) as H.
  destruct (traverse (period_entry excl w df) _) as [es|ex]; simpl.
  - destruct H as (rows & -> & Hrows). exists pdf', es. split; [done|].
    intros table'. unfold df_to_sql. by rewrite Hrows.
  - by rewrite H.
Qed.

Lemma assemble_table table tsid :
  match consensus_rows retrieve_data_vendor_id w tsid (query_all_tsid_prices table tsid) with
  | Ok rows => ∃ cdf,
      assemble retrieve_data_vendor_id w table tsid = ([], Ok cdf) ∧
      ∀ table', df_to_sql V cdf table' tsid = table' ++ rows
  | Raise ex => assemble retrieve_data_vendor_id w table tsid = ([], Raise ex)
  end.
Proof.
  pose proof (assemble_from_table None table tsid) as H. unfold assemble.
  destruct (consensus_rows _ _ _ _) as [rows|ex].
  - destruct H as (pdf' & cdf & -> & Hrows). by exists cdf.
  - by rewrite H.
Qed.

End write_back.

Section reconciler.
Context (retrieve_data_vendor_id : string → Z).
Context (delete_accepted : list price_row → string → bool).
Context (w : weights_table).

Local Abbreviation V := (validator retrieve_data_vendor_id).
Local Abbreviation run := (cross_validate retrieve_data_vendor_id delete_accepted w).
Local Abbreviation run_from :=
  (cross_validate_from retrieve_data_vendor_id delete_accepted w).

Lemma reconcile_write table tsid cdf rows :
  (∀ table', df_to_sql V cdf table' tsid = table' ++ rows) →
  reconcile retrieve_data_vendor_id delete_accepted table tsid cdf =
    write retrieve_data_vendor_id delete_accepted table tsid rows.
Proof.
  intros Hrows. unfold reconcile, write, delete_sql_table_rows. cbv zeta.
  fold V. case_decide; [|apply Hrows].
  destruct (delete_accepted table tsid); simpl; [apply Hrows | done].
Qed.

Lemma cross_validate_from_step pdf table tsid rest :
  match consensus_rows retrieve_data_vendor_id w tsid
          (query_all_tsid_prices table tsid) with
  | Ok rows => ∃ pdf',
      run_from pdf table (tsid :: rest) =
        run_from pdf' (write retrieve_data_vendor_id delete_accepted table tsid rows) rest
  | Raise ex => run_from pdf table (tsid :: rest) = Outcome table [] (Some ex)
  end.
Proof.
  simpl. pose proof (assemble_from_table retrieve_data_vendor_id w pdf table tsid) as H.
  destruct (consensus_rows _ _ _ _) as [rows|ex].
  - destruct H as (pdf' & cdf & -> & Hrows). exists pdf'.
    rewrite (reconcile_write _ _ _ rows Hrows). by destruct (run_from _ _ rest).
  - by rewrite H.
Qed.

(** What [period_df] holds when an instrument is entered makes no
    difference: on the frame of an instrument the extraction of its periods
    does not fail, and [period_df] is bound anew before it is read. *)
Lemma cross_validate_from_unbound tsid_list : ∀ pdf table,
  run_from pdf table tsid_list = run table tsid_list.
Proof.
  unfold cross_validate.
  induction tsid_list as [|tsid rest IH]; intros pdf table; [done|].
  pose proof (cross_validate_from_step pdf table tsid rest) as H1.
  pose proof (cross_validate_from_step None table tsid rest) as H2.
  destruct (consensus_rows _ _ _ _) as [rows|ex].
  - destruct H1 as (pdf1 & ->), H2 as (pdf2 & ->). by rewrite (IH pdf1), (IH pdf2).
  - by rewrite H1, H2.
Qed.

Lemma cross_validate_cons table tsid rest :
  run table (tsid :: rest) =
    match consensus_rows retrieve_data_vendor_id w tsid
            (query_all_tsid_prices table tsid) with
    | Ok rows => run (write retrieve_data_vendor_id delete_accepted table tsid rows) rest
    | Raise ex => Outcome table [] (Some ex)
    end.
Proof.
  pose proof (cross_validate_from_step None table tsid rest) as H.
  fold (run table (tsid :: rest)) in H.
  destruct (consensus_rows _ _ _ _) as [rows|ex]; [|done].
  destruct H as (pdf' & ->). apply cross_validate_from_unbound.
Qed.

(** The call on a list, in the terms of the assembly of its first
    instrument. *)
Lemma cross_validate_assemble table tsid rest :
  run table (tsid :: rest) =
    match assemble retrieve_data_vendor_id w table tsid with
    | (printed, Ok cdf) =>
        let o := run (reconcile retrieve_data_vendor_id delete_accepted table tsid cdf)
                   rest in
        Outcome (final_table o) (printed ++ printed_events o) (raised o)
    | (printed, Raise e) => Outcome table printed (Some e)
    end.
Proof.
  unfold cross_validate at 1, assemble. simpl.
  destruct (assemble_from _ _ None table tsid) as [printed [[pdf' cdf]|e]]; simpl;
    [|done].
  by rewrite cross_validate_from_unbound.
Qed.

(** The rows appended for an instrument carry its identifier. *)
Lemma df_to_sql_other vendor cdf table item tsid :
  item ≠ tsid →
  query_all_tsid_prices (df_to_sql vendor cdf table item) tsid =
    query_all_tsid_prices table tsid.
Proof.
  intros Hne. unfold df_to_sql, query_all_tsid_prices.
  destruct (mapM _ cdf) as [rows|] eqn:Hrows; [|done].
  rewrite filter_app.
  replace (filter _ rows) with (@nil price_row); [by rewrite app_nil_r|].
  symmetry. apply filter_none.
  cut (Forall (λ r, r_tsid r = item) rows).
  { intros HF. eapply Forall_impl; [exact HF|]. simpl. intros r Hr Heq. congruence. }
  revert rows Hrows.
  induction cdf as [|e cdf IH]; intros rows Hrows.
  - injection Hrows as <-. constructor.
  - simpl in Hrows.
    destruct (consensus_row item vendor e) as [row|] eqn:He; [|done].
    destruct (mapM _ cdf) as [rows'|]; [|done]. injection Hrows as <-.
    constructor; [|by apply IH].
    unfold consensus_row in He.
    repeat (match type of He with
            | (?o ≫= _) = Some _ => destruct o; [|done]
            end; simpl in He).
    by injection He as <-.
Qed.

(** The iteration of one instrument leaves the rows of the others as
    they are. *)
Lemma reconcile_other table item cdf tsid :
  item ≠ tsid →
  query_all_tsid_prices
    (reconcile retrieve_data_vendor_id delete_accepted table item cdf) tsid =
    query_all_tsid_prices table tsid.
Proof.
  intros Hne. unfold reconcile, delete_sql_table_rows. cbv zeta.
  assert (query_all_tsid_prices
            (filter (λ r, ¬ (r_tsid r = item ∧ r_vendor r = V)) table) tsid =
          query_all_tsid_prices table tsid) as Hdel.
  { unfold query_all_tsid_prices. rewrite list_filter_filter.
    apply list_filter_iff. intros r. split; [tauto|].
    intros Hr. split; [done|]. intros [? _]. congruence. }
  case_decide; [|by apply df_to_sql_other].
  destruct (delete_accepted table item); simpl; [|done].
  by rewrite df_to_sql_other.
Qed.

Lemma final_table_other tsid tsid_list : ∀ table,
  tsid ∉ tsid_list →
  query_all_tsid_prices (final_table (run table tsid_list)) tsid =
    query_all_tsid_prices table tsid.
Proof.
  induction tsid_list as [|item rest IH]; intros table Hnot; [done|].
  apply not_elem_of_cons in Hnot as [Hne Hnot]. rewrite cross_validate_assemble.
  destruct (assemble _ _ _ _) as [printed [cdf|ex]]; simpl; [|done].
  rewrite IH by done. by apply reconcile_other.
Qed.

End reconciler.

(** C3: when the consensus vendor is among the sources of an instrument and
    the delete of its consensus rows is not reported as a success, nothing is
    appended: the iteration leaves the table as it found it, the instruments
    that follow are processed from that table, and at the end of the call
    the rows of the instrument are those it had before. *)
Theorem failed_delete_skips_append retrieve_data_vendor_id delete_accepted w
    table tsid rest printed cdf :
  assemble retrieve_data_vendor_id w table tsid = (printed, Ok cdf) →
  validator retrieve_data_vendor_id ∈
    unique (r_vendor <$> query_all_tsid_prices table tsid) →
  (delete_sql_table_rows (delete_accepted table tsid) table tsid
     (validator retrieve_data_vendor_id)).1 ≠ "success"%string →
  reconcile retrieve_data_vendor_id delete_accepted table tsid cdf = table ∧
  cross_validate retrieve_data_vendor_id delete_accepted w table (tsid :: rest) =
    (let o := cross_validate retrieve_data_vendor_id delete_accepted w table rest in
     Outcome (final_table o) (printed ++ printed_events o) (raised o)) ∧
  (tsid ∉ rest →
   query_all_tsid_prices
     (final_table (cross_validate retrieve_data_vendor_id delete_accepted w
                     table (tsid :: rest))) tsid =
   query_all_tsid_prices table tsid).
Proof.
  intros Hasm Hsrc Hdel.
  assert (reconcile retrieve_data_vendor_id delete_accepted table tsid cdf = table)
    as Hrec.
  { unfold reconcile. cbv zeta. fold (validator retrieve_data_vendor_id).
    rewrite decide_True by done.
    unfold delete_sql_table_rows in *.
    destruct (delete_accepted table tsid); simpl in *; done. }
  split; [done|]. split.
  - rewrite cross_validate_assemble, Hasm, Hrec. done.
  - intros Hnot. rewrite cross_validate_assemble, Hasm, Hrec. simpl.
    by apply final_table_other.
Qed.

Lemma failed_delete_skips_append_witness :
  let cdf := [("d1"%string,
       [(LStr "open", q 10); (LStr "high", q 11); (LStr "low", q 9);
        (LStr "close", q 10); (LStr "volume", q 100)])] in
  reconcile (λ _, 9) (λ _ _, false) stale_table "A" cdf = stale_table ∧
  cross_validate (λ _, 9) (λ _ _, false) main_weights stale_table ["A"; "B"]%string =
    (let o := cross_validate (λ _, 9) (λ _ _, false) main_weights stale_table ["B"%string] in
     Outcome (final_table o) ([] ++ printed_events o) (raised o)) ∧
  ("A"%string ∉ ["B"%string] →
   query_all_tsid_prices
     (final_table (cross_validate (λ _, 9) (λ _ _, false) main_weights
                     stale_table ["A"; "B"]%string)) "A" =
   query_all_tsid_prices stale_table "A").
Proof.
  intros cdf.
  apply (failed_delete_skips_append (λ _, 9) (λ _ _, false) main_weights
           stale_table "A" ["B"%string] [] cdf).
  - vm_compute. reflexivity.
  - vm_compute. right. left.
  - vm_compute. discriminate.
Defined.

(** * Running the reconciliation again *)

Lemma traverse_Forall2 {A B} (f : A → result B) l ys :
  traverse f l = Ok ys → Forall2 (λ x y, f x = Ok y) l ys.
Proof.
  revert ys. induction l as [|a l IH]; intros ys Hl; simpl in Hl.
  - injection Hl as <-. constructor.
  - apply bind_Ok in Hl as (y & Hy & Hl).
    apply bind_Ok in Hl as (ys' & Hys' & [= <-]). constructor; auto.
Qed.

Section settled.
Context (retrieve_data_vendor_id : string → Z) (w : weights_table).

Local Abbreviation V := (validator retrieve_data_vendor_id).
Local Abbreviation excl := (source_id_exclude_list retrieve_data_vendor_id).
Local Abbreviation crows := (consensus_rows retrieve_data_vendor_id w).
Local Abbreviation obs := (observed retrieve_data_vendor_id).

Lemma surviving_candidates c rows :
  surviving excl (candidates c rows) = candidates c (obs rows).
Proof.
  unfold surviving, candidates, observed.
  induction rows as [|r rows IH]; [done|]. rewrite fmap_cons.
  destruct (decide (r_vendor r = V)) as [Heq|Hne].
  - rewrite filter_cons_False, (filter_cons_False _ r); [exact IH | by intros [] |].
    simpl. intros Hnot. apply Hnot. rewrite Heq. left.
  - rewrite filter_cons_True, (filter_cons_True _ r); [|done|].
    + by rewrite fmap_cons, IH.
    + simpl. intros Hin%list_elem_of_singleton. injection Hin as Hin.
      exact (Hne Hin).
Qed.

Lemma period_row_observed tsid rows rows' d :
  obs rows = obs rows' →
  period_row retrieve_data_vendor_id w tsid rows d =
  period_row retrieve_data_vendor_id w tsid rows' d.
Proof.
  intros Hobs. unfold period_row.
  assert (∀ c, field_vote excl w (candidates c rows) =
               field_vote excl w (candidates c rows')) as Hc.
  { intros c. rewrite <-(field_vote_surviving excl w (candidates c rows)).
    rewrite <-(field_vote_surviving excl w (candidates c rows')).
    by rewrite !surviving_candidates, Hobs. }
  by rewrite !Hc.
Qed.

Lemma period_row_Ok tsid rows d row :
  period_row retrieve_data_vendor_id w tsid rows d = Ok row →
  r_tsid row = tsid ∧ r_date row = d ∧ r_vendor row = V.
Proof.
  unfold period_row. intros H.
  repeat (apply bind_Ok in H as (? & _ & H)). by injection H as <-.
Qed.

Lemma consensus_rows_shape tsid df rows :
  crows tsid df = Ok rows →
  r_date <$> rows = unique (r_date <$> df) ∧
  Forall (λ r, r_tsid r = tsid ∧ r_vendor r = V) rows.
Proof.
  unfold consensus_rows. generalize (unique (r_date <$> df)). intros dates H.
  apply traverse_Forall2 in H.
  induction H as [|d row dates rows Hrow _ [IH1 IH2]]; [by split|].
  apply period_row_Ok in Hrow as (? & ? & ?). split.
  - simpl. by f_equal.
  - constructor; [done | exact IH2].
Qed.

Lemma observed_block df d : obs (block df d) = block (obs df) d.
Proof.
  unfold observed, block. rewrite !list_filter_filter.
  apply list_filter_iff. intros r. tauto.
Qed.

(** The consensus rows depend on the rows of the other vendors and on the
    set of the periods only. *)
Lemma consensus_rows_refresh tsid df df' rows :
  crows tsid df = Ok rows →
  obs df' = obs df →
  (∀ d, d ∈ r_date <$> df' ↔ d ∈ r_date <$> df) →
  ∃ rows', crows tsid df' = Ok rows' ∧ rows ≡ₚ rows'.
Proof.
  intros Hrows Hobs Hdates. unfold consensus_rows in *.
  rewrite (traverse_ext _ (λ d, period_row retrieve_data_vendor_id w tsid (block df d) d)).
  - apply (traverse_Permutation _ (unique (r_date <$> df))); [|done].
    apply NoDup_Permutation; [apply unique_NoDup..|].
    intros d. by rewrite !unique_elem_of.
  - intros d _. apply period_row_observed. by rewrite !observed_block, Hobs.
Qed.

End settled.

Section rerun.
Context (retrieve_data_vendor_id : string → Z).
Context (delete_accepted : list price_row → string → bool).
Context (w : weights_table).

Local Abbreviation V := (validator retrieve_data_vendor_id).
Local Abbreviation crows := (consensus_rows retrieve_data_vendor_id w).
Local Abbreviation run := (cross_validate retrieve_data_vendor_id delete_accepted w).
Local Abbreviation obs := (observed retrieve_data_vendor_id).
Local Abbreviation wr := (write retrieve_data_vendor_id delete_accepted).

Lemma observed_no_consensus df :
  V ∉ unique (r_vendor <$> df) → obs df = df.
Proof.
  intros Hnot. apply filter_all, Forall_forall. intros r Hr Heq.
  apply Hnot, unique_elem_of, list_elem_of_fmap. by exists r.
Qed.

Lemma query_own tsid rows :
  Forall (λ r, r_tsid r = tsid ∧ r_vendor r = V) rows →
  query_all_tsid_prices rows tsid = rows.
Proof.
  intros H. apply filter_all. eapply Forall_impl; [exact H|]. by intros r [? _].
Qed.

Lemma query_foreign tsid item rows :
  item ≠ tsid →
  Forall (λ r, r_tsid r = item ∧ r_vendor r = V) rows →
  query_all_tsid_prices rows tsid = [].
Proof.
  intros Hne H. apply filter_none. eapply Forall_impl; [exact H|].
  simpl. intros r [? _]. congruence.
Qed.

(** The frame of the instrument after its own iteration, when the rows of
    the consensus vendor were deleted or there were none. *)
Lemma write_frame table tsid rows :
  Forall (λ r, r_tsid r = tsid ∧ r_vendor r = V) rows →
  V ∉ unique (r_vendor <$> query_all_tsid_prices table tsid) ∨
    delete_accepted table tsid = true →
  query_all_tsid_prices (wr table tsid rows) tsid =
    obs (query_all_tsid_prices table tsid) ++ rows.
Proof.
  intros Hrows Hor. unfold write. case_decide as Hsrc.
  - destruct Hor as [?| ->]; [done|].
    unfold query_all_tsid_prices at 1. rewrite filter_app.
    fold (query_all_tsid_prices rows tsid). rewrite query_own by done.
    f_equal. unfold observed, query_all_tsid_prices.
    rewrite !list_filter_filter. apply list_filter_iff. intros r. tauto.
  - unfold query_all_tsid_prices at 1. rewrite filter_app.
    fold (query_all_tsid_prices rows tsid) (query_all_tsid_prices table tsid).
    rewrite (query_own tsid rows) by done. by rewrite observed_no_consensus.
Qed.

Lemma write_other table item rows tsid :
  item ≠ tsid →
  Forall (λ r, r_tsid r = item ∧ r_vendor r = V) rows →
  query_all_tsid_prices (wr table item rows) tsid =
    query_all_tsid_prices table tsid.
Proof.
  intros Hne Hrows.
  assert (∀ t, query_all_tsid_prices (t ++ rows) tsid =
               query_all_tsid_prices t tsid) as Happ.
  { intros t. unfold query_all_tsid_prices at 1. rewrite filter_app.
    fold (query_all_tsid_prices rows tsid).
    by rewrite (query_foreign tsid item), app_nil_r. }
  unfold write. case_decide; [|apply Happ].
  destruct (delete_accepted table item); [|done]. rewrite Happ.
  unfold query_all_tsid_prices. rewrite list_filter_filter.
  apply list_filter_iff. intros r. split; [tauto|].
  intros Hr. split; [done|]. intros [? _]. congruence.
Qed.

(** After its iteration an instrument is settled. *)
Lemma write_settles table tsid rows :
  crows tsid (query_all_tsid_prices table tsid) = Ok rows →
  V ∉ unique (r_vendor <$> query_all_tsid_prices table tsid) ∨
    delete_accepted table tsid = true →
  settled retrieve_data_vendor_id w tsid
    (query_all_tsid_prices (wr table tsid rows) tsid).
Proof.
  intros Hrows Hor.
  destruct (consensus_rows_shape _ _ _ _ _ Hrows) as [Hdates Hshape].
  rewrite write_frame by done.
  set (df := query_all_tsid_prices table tsid) in *.
  assert (obs rows = []) as Hobs_rows.
  { apply filter_none. eapply Forall_impl; [exact Hshape|].
    simpl. intros r [_ Hv] Hne. done. }
  destruct (consensus_rows_refresh retrieve_data_vendor_id w tsid df
              (obs df ++ rows) rows Hrows) as (rows' & Hrows' & Hperm).
  - unfold observed at 1. rewrite filter_app. fold (obs (obs df)) (obs rows).
    rewrite Hobs_rows, app_nil_r. unfold observed.
    rewrite list_filter_filter. apply list_filter_iff. tauto.
  - intros d. rewrite fmap_app, elem_of_app, Hdates, unique_elem_of.
    split; [|tauto]. intros [Hd|Hd]; [|done].
    apply list_elem_of_fmap in Hd as (r & -> & Hr).
    apply list_elem_of_filter in Hr as [_ Hr].
    apply list_elem_of_fmap. by exists r.
  - exists rows'. split; [done|]. rewrite filter_app.
    rewrite (filter_none _ (obs df)).
    + rewrite filter_all; [done|]. eapply Forall_impl; [exact Hshape|].
      by intros r [_ ?].
    + apply Forall_forall. intros r Hr%list_elem_of_filter. tauto.
Qed.

(** On a settled instrument the iteration rearranges the table at most,
    and leaves the instrument settled. *)
Lemma write_settled table tsid rows :
  settled retrieve_data_vendor_id w tsid (query_all_tsid_prices table tsid) →
  crows tsid (query_all_tsid_prices table tsid) = Ok rows →
  wr table tsid rows ≡ₚ table ∧
  settled retrieve_data_vendor_id w tsid
    (query_all_tsid_prices (wr table tsid rows) tsid).
Proof.
  intros Hset Hrows.
  assert (filter (λ r, r_tsid r = tsid ∧ r_vendor r = V) table ≡ₚ rows) as Hold.
  { destruct Hset as (rows0 & Hrows0 & Hperm).
    rewrite Hrows in Hrows0. injection Hrows0 as <-.
    rewrite <-Hperm. unfold query_all_tsid_prices.
    rewrite list_filter_filter. erewrite list_filter_iff; [done|].
    intros r. simpl. tauto. }
  destruct (decide (V ∈ unique (r_vendor <$> query_all_tsid_prices table tsid)))
    as [Hsrc|Hsrc]; [destruct (delete_accepted table tsid) eqn:Hacc|].
  - split; [|apply write_settles; auto].
    unfold write. rewrite decide_True, Hacc by done.
    rewrite <-Hold, Permutation_app_comm. apply filter_app_complement.
  - split; [|by unfold write; rewrite decide_True, Hacc].
    unfold write. by rewrite decide_True, Hacc.
  - split; [|apply write_settles; auto].
    unfold write. rewrite decide_False by done.
    assert (rows = []) as ->; [|by rewrite app_nil_r].
    rewrite filter_none in Hold; [by apply Permutation_nil_l in Hold|].
    apply Forall_forall. intros r Hr [Ht Hv].
    apply Hsrc, unique_elem_of, list_elem_of_fmap. exists r. split; [done|].
    apply list_elem_of_filter. done.
Qed.

End rerun.

Lemma NoDup_fmap_filter_length {A B} `{EqDecision B} (f : A → B) (d : B) (l : list A) :
  NoDup (f <$> l) → (length (filter (λ x, f x = d) l) ≤ 1)%nat.
Proof.
  induction l as [|x l IH]; [simpl; lia|].
  rewrite fmap_cons. intros [Hx Hl]%NoDup_cons.
  destruct (decide (f x = d)) as [Heq|Hne].
  - rewrite filter_cons_True by done. rewrite filter_none; [simpl; lia|].
    apply Forall_forall. intros y Hy Hfy. apply Hx, list_elem_of_fmap.
    exists y. split; [congruence | done].
  - rewrite filter_cons_False by done. auto.
Qed.

Section runs.
Context (retrieve_data_vendor_id : string → Z) (w : weights_table).

Local Abbreviation V := (validator retrieve_data_vendor_id).
Local Abbreviation crows := (consensus_rows retrieve_data_vendor_id w).
Local Abbreviation is_settled := (settled retrieve_data_vendor_id w).

(** A call that comes to its end with every delete carried out leaves
    each instrument of the list settled. *)
Lemma run_settles delete_accepted tsid_list : ∀ table,
  (∀ t item, delete_accepted t item = true) →
  raised (cross_validate retrieve_data_vendor_id delete_accepted w table tsid_list) = None →
  ∀ tsid, tsid ∈ tsid_list →
    is_settled tsid
      (query_all_tsid_prices
         (final_table (cross_validate retrieve_data_vendor_id delete_accepted w
                         table tsid_list)) tsid).
Proof.
  induction tsid_list as [|item rest IH]; intros table Hacc Hraised tsid Hin.
  { by apply elem_of_nil in Hin. }
  rewrite cross_validate_cons in *.
  destruct (crows item (query_all_tsid_prices table item)) as [rows|ex] eqn:Hrows;
    [|done].
  destruct (decide (tsid ∈ rest)) as [Hrest|Hrest]; [by apply IH|].
  apply elem_of_cons in Hin as [->|Hin]; [|done].
  rewrite final_table_other by done. apply write_settles; auto.
Qed.

(** A call on a table whose instruments are settled comes to its end and
    rearranges the table at most. *)
Lemma rerun_settled delete_accepted tsid_list : ∀ table,
  (∀ tsid, tsid ∈ tsid_list →
     is_settled tsid (query_all_tsid_prices table tsid)) →
  raised (cross_validate retrieve_data_vendor_id delete_accepted w table tsid_list) = None ∧
  final_table (cross_validate retrieve_data_vendor_id delete_accepted w table tsid_list)
    ≡ₚ table.
Proof.
  induction tsid_list as [|item rest IH]; intros table Hset; [done|].
  rewrite cross_validate_cons.
  destruct (Hset item) as (rows & Hrows & Hperm); [left|].
  rewrite Hrows.
  destruct (write_settled retrieve_data_vendor_id delete_accepted w table item rows)
    as [Hwr Hitem]; [by exists rows | done |].
  destruct (IH (write retrieve_data_vendor_id delete_accepted table item rows))
    as [Hraised Hfinal].
  - intros tsid Hin. destruct (decide (tsid = item)) as [->|Hne]; [done|].
    rewrite write_other; [apply Hset; by right | done |].
    by destruct (consensus_rows_shape _ _ _ _ _ Hrows).
  - split; [done|]. by rewrite Hfinal.
Qed.

End runs.

Section interrupted_runs.
Context (retrieve_data_vendor_id : string → Z) (w : weights_table).

Local Abbreviation crows := (consensus_rows retrieve_data_vendor_id w).
Local Abbreviation is_settled := (settled retrieve_data_vendor_id w).

(** A call that raises, with every delete carried out before, stops at an
    instrument whose consensus rows cannot be computed; the instruments
    before it are settled and the frames of the others are untouched. *)
Lemma run_interrupted delete_accepted tsid_list : ∀ table ex,
  (∀ t item, delete_accepted t item = true) →
  raised (cross_validate retrieve_data_vendor_id delete_accepted w table tsid_list)
    = Some ex →
  let final :=
    final_table (cross_validate retrieve_data_vendor_id delete_accepted w
                   table tsid_list) in
  ∃ done_list item rest,
    tsid_list = done_list ++ item :: rest ∧
    (∀ tsid, tsid ∈ done_list →
       is_settled tsid (query_all_tsid_prices final tsid)) ∧
    (∀ tsid, tsid ∉ done_list →
       query_all_tsid_prices final tsid = query_all_tsid_prices table tsid) ∧
    crows item (query_all_tsid_prices final item) = Raise ex.
Proof.
  induction tsid_list as [|a rest IH]; intros table ex Hacc Hraised; [done|].
  cbv zeta. rewrite cross_validate_cons in *.
  destruct (crows a (query_all_tsid_prices table a)) as [rows|ex'] eqn:Hrows.
  - destruct (IH _ _ Hacc Hraised) as (P & item & rest' & -> & Hset & Hframe & Hstop).
    exists (a :: P), item, rest'. split; [done|]. split; [|split; [|done]].
    + intros tsid Hin. destruct (decide (tsid ∈ P)) as [HP|HP]; [by apply Hset|].
      apply elem_of_cons in Hin as [->|Hin]; [|done].
      rewrite Hframe by done. apply write_settles; auto.
    + intros tsid [Hne HP]%not_elem_of_cons. rewrite Hframe by done.
      apply write_other; [done|].
      by destruct (consensus_rows_shape _ _ _ _ _ Hrows).
  - simpl in *. injection Hraised as ->.
    exists [], a, rest. split; [done|]. split; [|done].
    intros tsid Hin. by apply elem_of_nil in Hin.
Qed.

(** On a table where the instruments before the one that stops the call
    are settled, the call stops at the same instrument with the same
    exception and rearranges the table at most. *)
Lemma rerun_interrupted delete_accepted done_list item rest ex : ∀ table,
  (∀ tsid, tsid ∈ done_list →
     is_settled tsid (query_all_tsid_prices table tsid)) →
  crows item (query_all_tsid_prices table item) = Raise ex →
  raised (cross_validate retrieve_data_vendor_id delete_accepted w table
            (done_list ++ item :: rest)) = Some ex ∧
  final_table (cross_validate retrieve_data_vendor_id delete_accepted w table
                 (done_list ++ item :: rest)) ≡ₚ table.
Proof.
  induction done_list as [|a P IH]; intros table Hset Hstop.
  - simpl app. rewrite cross_validate_cons, Hstop. done.
  - rewrite <-app_comm_cons, cross_validate_cons.
    destruct (Hset a) as (rows & Hrows & Hperm); [left|]. rewrite Hrows.
    destruct (write_settled retrieve_data_vendor_id delete_accepted w table a rows)
      as [Hwr Ha]; [by exists rows | done |].
    assert (Forall (λ r, r_tsid r = a ∧
              r_vendor r = validator retrieve_data_vendor_id) rows) as Hshape.
    { by destruct (consensus_rows_shape _ _ _ _ _ Hrows). }
    destruct (IH (write retrieve_data_vendor_id delete_accepted table a rows))
      as [Hraised Hfinal].
    + intros tsid Hin. destruct (decide (tsid = a)) as [->|Hne]; [done|].
      rewrite write_other by done. apply Hset. by right.
    + rewrite write_other; [done | | done]. intros <-. congruence.
    + split; [done|]. by rewrite Hfinal.
Qed.

End interrupted_runs.

(** C2: after a call whose deletes were carried out, a second call on the
    table it left, with the same instruments and weights, ends as the
    first did and leaves the same consensus rows, each as many times as
    before and with the values it had; the whole table holds the same
    rows. *)
Theorem rerun_keeps_consensus_rows retrieve_data_vendor_id
    accepted_first accepted_second w table tsid_list :
  (∀ t item, accepted_first t item = true) →
  let once := cross_validate retrieve_data_vendor_id accepted_first w table tsid_list in
  let twice :=
    cross_validate retrieve_data_vendor_id accepted_second w (final_table once) tsid_list in
  raised twice = raised once ∧
  filter (λ r, r_vendor r = validator retrieve_data_vendor_id) (final_table twice)
    ≡ₚ filter (λ r, r_vendor r = validator retrieve_data_vendor_id) (final_table once) ∧
  final_table twice ≡ₚ final_table once.
Proof.
  intros Hacc. cbv zeta.
  cut (raised (cross_validate retrieve_data_vendor_id accepted_second w
         (final_table (cross_validate retrieve_data_vendor_id accepted_first w table tsid_list))
         tsid_list) =
       raised (cross_validate retrieve_data_vendor_id accepted_first w table tsid_list) ∧
       final_table (cross_validate retrieve_data_vendor_id accepted_second w
         (final_table (cross_validate retrieve_data_vendor_id accepted_first w table tsid_list))
         tsid_list) ≡ₚ
       final_table (cross_validate retrieve_data_vendor_id accepted_first w table tsid_list)).
  { intros [Hr Hp]. split; [done|]. split; [|done]. by rewrite Hp. }
  destruct (raised (cross_validate retrieve_data_vendor_id accepted_first w table tsid_list))
    as [ex|] eqn:Hraised.
  - destruct (run_interrupted retrieve_data_vendor_id w accepted_first tsid_list
                table ex Hacc Hraised) as (P & item & rest & Hlist & Hset & _ & Hstop).
    rewrite Hlist at 2 4. by apply rerun_interrupted.
  - apply rerun_settled. intros tsid Hin. by apply run_settles.
Qed.

(** C6: after a call that has come to its end with its deletes carried
    out, the table holds for an instrument of the list at most one row of
    the consensus vendor per period, and the rows of the consensus vendor
    it holds for the instrument are the ones this call has computed. *)
Theorem one_consensus_row_per_period retrieve_data_vendor_id delete_accepted w
    table tsid_list tsid date :
  (∀ t item, delete_accepted t item = true) →
  raised (cross_validate retrieve_data_vendor_id delete_accepted w table tsid_list) = None →
  tsid ∈ tsid_list →
  let final :=
    final_table (cross_validate retrieve_data_vendor_id delete_accepted w table tsid_list) in
  (length (filter (λ r, r_tsid r = tsid ∧ r_date r = date ∧
                        r_vendor r = validator retrieve_data_vendor_id) final) ≤ 1)%nat ∧
  ∃ rows,
    consensus_rows retrieve_data_vendor_id w tsid (query_all_tsid_prices final tsid) = Ok rows ∧
    filter (λ r, r_tsid r = tsid ∧ r_vendor r = validator retrieve_data_vendor_id) final
      ≡ₚ rows.
Proof.
  intros Hacc Hraised Hin. cbv zeta.
  destruct (run_settles retrieve_data_vendor_id w delete_accepted tsid_list table
              Hacc Hraised tsid Hin) as (rows & Hrows & Hperm).
  set (final := final_table _) in *.
  assert (filter (λ r, r_tsid r = tsid ∧ r_vendor r = validator retrieve_data_vendor_id)
            final ≡ₚ rows) as Hcons.
  { rewrite <-Hperm. unfold query_all_tsid_prices. rewrite list_filter_filter.
    erewrite list_filter_iff; [done|]. intros r. simpl. tauto. }
  split; [|by exists rows].
  replace (filter _ final) with
    (filter (λ r, r_date r = date)
       (filter (λ r, r_tsid r = tsid ∧ r_vendor r = validator retrieve_data_vendor_id)
          final)).
  - apply NoDup_fmap_filter_length. rewrite Hcons.
    destruct (consensus_rows_shape _ _ _ _ _ Hrows) as [-> _]. apply unique_NoDup.
  - rewrite list_filter_filter. apply list_filter_iff. intros r. tauto.
Qed.

(** * The theorems on a sample table *)

(** The call on the sample table comes to its end; the consensus row found
    for A is replaced, and each period of each instrument gets one row. *)
Lemma sample_run :
  cross_validate (λ _, 9) (λ _ _, true) zero_label_weights sample_table
    ["A"; "B"]%string =
  Outcome
    [ PriceRow "A" "d1" 1 (q 10) (q 11) (q 9) (q 10) (q 100);
      PriceRow "A" "d1" 2 (q 12) (q 11) (q 9) (q 10) (q 100);
      PriceRow "A" "d2" 1 (q 10) (q 12) (q 9) (q 11) (q 90);
      PriceRow "B" "d1" 1 (q 20) (q 21) (q 19) (q 20) (q 500);
      PriceRow "A" "d1" 9 (q 12) (q 11) (q 9) (q 10) (q 100);
      PriceRow "A" "d2" 9 (q 10) (q 12) (q 9) (q 11) (q 90);
      PriceRow "B" "d1" 9 (q 20) (q 21) (q 19) (q 20) (q 500) ]
    [] None.
Proof. vm_compute. reflexivity. Qed.

Lemma rerun_keeps_consensus_rows_witness :
  let once :=
    cross_validate (λ _, 9) (λ _ _, true) zero_label_weights sample_table
      ["A"; "B"]%string in
  let twice :=
    cross_validate (λ _, 9) (λ _ _, true) zero_label_weights (final_table once)
      ["A"; "B"]%string in
  raised twice = raised once ∧
  filter (λ r, r_vendor r = validator (λ _, 9)) (final_table twice)
    ≡ₚ filter (λ r, r_vendor r = validator (λ _, 9)) (final_table once) ∧
  final_table twice ≡ₚ final_table once.
Proof.
  apply (rerun_keeps_consensus_rows (λ _, 9) (λ _ _, true) (λ _ _, true)
           zero_label_weights sample_table ["A"; "B"]%string).
  intros t item. reflexivity.
Defined.

Lemma one_consensus_row_per_period_witness :
  let final :=
    final_table (cross_validate (λ _, 9) (λ _ _, true) zero_label_weights
                   sample_table ["A"; "B"]%string) in
  (length (filter (λ r, r_tsid r = "A"%string ∧ r_date r = "d1"%string ∧
                        r_vendor r = validator (λ _, 9%Z)) final) ≤ 1)%nat ∧
  ∃ rows,
    consensus_rows (λ _, 9) zero_label_weights "A"
      (query_all_tsid_prices final "A") = Ok rows ∧
    filter (λ r, r_tsid r = "A"%string ∧ r_vendor r = validator (λ _, 9)) final
      ≡ₚ rows.
Proof.
  apply (one_consensus_row_per_period (λ _, 9) (λ _ _, true) zero_label_weights
           sample_table ["A"; "B"]%string "A" "d1").
  - intros t item. reflexivity.
  - vm_compute. reflexivity.
  - left.
Defined.

(** * Further properties of the voting round *)

(** What a round yields on candidates whose values are numbers. *)
Lemma field_vote_Ok_numbers excl w data v :
  (∀ sd, sd ∈ data → sd.1 ∉ excl → sd.2 ≠ NaN) →
  field_vote excl w data = Ok v ↔
    (∀ sd, sd ∈ data → sd.1 ∉ excl → is_Ok (read_weight w sd.1)) ∧
    (∃ sd, sd ∈ data ∧ (sd.1 ∉ excl) ∧ sd.2 = v) ∧
    (∀ sd, sd ∈ data → sd.1 ∉ excl → py_le sd.2 v = true).
Proof.
  intros Hnum. unfold field_vote. split.
  - intros (fc & Hfc & Hmax)%bind_Ok.
    pose proof (λ k, field_consensus_keys excl w data fc k Hfc) as Hkeys.
    assert (NaN ∉ keys fc) as Hnan.
    { intros (sd & Hsd & Hout & Heq)%Hkeys. by apply (Hnum sd). }
    split; [|split].
    + by apply (consensus_loop_Ok_readable excl w data [] fc).
    + by apply Hkeys, py_max_elem.
    + intros sd Hsd Hout. apply (py_max_ub _ _ Hmax Hnan).
      apply Hkeys. by exists sd.
  - intros (Hread & Hv & Hub).
    destruct (consensus_loop_readable excl w data [] Hread) as [fc Hfc].
    fold (field_consensus_of excl w data) in Hfc. rewrite Hfc. simpl.
    pose proof (λ k, field_consensus_keys excl w data fc k Hfc) as Hkeys.
    assert (NaN ∉ keys fc) as Hnan.
    { intros (sd & Hsd & Hout & Heq)%Hkeys. by apply (Hnum sd). }
    assert (v ∈ keys fc) as Hin by (by apply Hkeys).
    destruct (py_max_nonempty (keys fc)) as [m Hm].
    { intros Hnil. rewrite Hnil in Hin. by apply elem_of_nil in Hin. }
    rewrite Hm. f_equal. apply py_le_antisym.
    + pose proof (py_max_elem _ _ Hm) as (sd & ? & ? & <-)%Hkeys. by apply Hub.
    + by apply (py_max_ub _ _ Hm Hnan).
Qed.

(** X1: on candidates whose values are numbers, the round yields the value
    [v] exactly when the weight of every surviving candidate can be read,
    some surviving candidate reported [v] and no surviving candidate
    reported a larger value. *)
Theorem field_vote_Ok_iff excl w data (v : price) :
  (∀ sd, sd ∈ data → sd.1 ∉ excl → sd.2 ≠ NaN) →
  field_vote excl w data = Ok v ↔
    (∀ sd, sd ∈ data → sd.1 ∉ excl → is_Ok (read_weight w sd.1)) ∧
    (∃ sd, sd ∈ data ∧ (sd.1 ∉ excl) ∧ sd.2 = v) ∧
    (∀ sd, sd ∈ data → sd.1 ∉ excl → py_le sd.2 v = true).
Proof. apply field_vote_Ok_numbers. Qed.

Lemma field_vote_Ok_iff_witness :
  field_vote [LInt 9] zero_label_weights
    [(LInt 1, q 10); (LInt 9, NaN); (LInt 2, q 12)] = Ok (q 12) ↔
    (∀ sd, sd ∈ [(LInt 1, q 10); (LInt 9, NaN); (LInt 2, q 12)] →
       sd.1 ∉ [LInt 9] → is_Ok (read_weight zero_label_weights sd.1)) ∧
    (∃ sd, sd ∈ [(LInt 1, q 10); (LInt 9, NaN); (LInt 2, q 12)] ∧
       (sd.1 ∉ [LInt 9]) ∧ sd.2 = q 12) ∧
    (∀ sd, sd ∈ [(LInt 1, q 10); (LInt 9, NaN); (LInt 2, q 12)] →
       sd.1 ∉ [LInt 9] → py_le sd.2 (q 12) = true).
Proof.
  apply (field_vote_Ok_iff [LInt 9] zero_label_weights
           [(LInt 1, q 10); (LInt 9, NaN); (LInt 2, q 12)] (q 12)).
  intros sd Hin Hout.
  repeat (apply elem_of_cons in Hin as [->|Hin]);
    [discriminate | | discriminate | by apply elem_of_nil in Hin].
  destruct Hout. simpl. left.
Defined.

(** X2: the round raises exactly when no candidate survives the exclusion
    or the weight of a surviving candidate cannot be read; when no
    candidate survives, what it raises is the [ValueError] of [max]. *)
Theorem field_vote_raises excl w data :
  (¬ is_Ok (field_vote excl w data) ↔
     (∀ sd, sd ∈ data → sd.1 ∈ excl) ∨
     (∃ sd, sd ∈ data ∧ (sd.1 ∉ excl) ∧ (¬ is_Ok (read_weight w sd.1)))) ∧
  ((∀ sd, sd ∈ data → sd.1 ∈ excl) →
   field_vote excl w data = Raise ValueError).
Proof.
  split; [|by intros Hall; apply all_excluded_raises].
  unfold field_vote.
  destruct (field_consensus_of excl w data) as [fc|e] eqn:Hfc; simpl.
  - pose proof (consensus_loop_Ok_readable _ _ _ _ _ Hfc) as Hread.
    pose proof (λ k, field_consensus_keys excl w data fc k Hfc) as Hkeys.
    split.
    + intros Hno. left. intros sd Hin.
      destruct (decide (sd.1 ∈ excl)) as [|Hout]; [done|].
      destruct Hno. apply py_max_nonempty. intros Hnil.
      assert (sd.2 ∈ keys fc) as Hk by (apply Hkeys; by exists sd).
      rewrite Hnil in Hk. by apply elem_of_nil in Hk.
    + intros [Hall|(sd & Hin & Hout & Hno)].
      * destruct (all_excluded_raises excl w data Hall) as [Hfc' _].
        rewrite Hfc in Hfc'. injection Hfc' as ->. simpl. intros [x Hx]. done.
      * destruct Hno. by apply Hread.
  - destruct (consensus_loop_Raise_unreadable _ _ _ _ _ Hfc) as (sd & Hin & Hout & Hno).
    split.
    + intros _. right. by exists sd.
    + intros _ [x Hx]. done.
Qed.

(** X3: a candidate whose source has a row in the weights table under an
    index label other than 0 makes the round raise the error of the failed
    subscript, as a source without a row does. *)
Theorem nonzero_label_raises excl w data (id : Z) (v : price) row :
  (LInt id, v) ∈ data →
  LInt id ∉ excl →
  w !! id = Some row →
  index_label row ≠ 0 →
  field_consensus_of excl w data = Raise LookupError ∧
  field_vote excl w data = Raise LookupError.
Proof.
  intros Hin Hout Hrow Hlabel.
  assert (field_consensus_of excl w data = Raise LookupError) as Hfc.
  { apply (consensus_loop_unreadable excl w [] data (LInt id, v)); [done..|].
    intros [x Hx]. unfold read_weight, getitem_0 in Hx. simpl in Hx.
    rewrite Hrow in Hx. by rewrite decide_False in Hx. }
  split; [done|]. unfold field_vote. by rewrite Hfc.
Qed.

Lemma nonzero_label_raises_witness :
  field_consensus_of [] main_weights [(LInt 1, q 10); (LInt 2, q 12)] = Raise LookupError ∧
  field_vote [] main_weights [(LInt 1, q 10); (LInt 2, q 12)] = Raise LookupError.
Proof.
  apply (nonzero_label_raises [] main_weights _ 2 (q 12) (WeightRow 1 50)).
  - right. left.
  - apply not_elem_of_nil.
  - reflexivity.
  - discriminate.
Defined.

(** X4: on candidates whose values are numbers the order in which the
    candidates come does not matter: the round on the same candidates in
    another order yields the same value, or raises as the first does. *)
Theorem candidate_order_is_irrelevant excl w data data' (v : price) :
  data ≡ₚ data' →
  (∀ sd, sd ∈ data → sd.1 ∉ excl → sd.2 ≠ NaN) →
  field_vote excl w data = Ok v ↔ field_vote excl w data' = Ok v.
Proof.
  intros Hp Hnum.
  rewrite (field_vote_Ok_numbers excl w data v Hnum).
  rewrite (field_vote_Ok_numbers excl w data' v).
  - setoid_rewrite Hp. done.
  - intros sd Hin. apply Hnum. by rewrite Hp.
Qed.

Lemma candidate_order_is_irrelevant_witness :
  field_vote [LInt 9] zero_label_weights
    [(LInt 1, q 10); (LInt 9, q 30); (LInt 2, q 12)] = Ok (q 12) ↔
  field_vote [LInt 9] zero_label_weights
    [(LInt 2, q 12); (LInt 1, q 10); (LInt 9, q 30)] = Ok (q 12).
Proof.
  apply candidate_order_is_irrelevant.
  - symmetry.
    apply (Permutation_cons_append [(LInt 1, q 10); (LInt 9, q 30)] (LInt 2, q 12)).
  - intros sd Hin Hout.
    repeat (apply elem_of_cons in Hin as [->|Hin]);
      [discriminate.. | by apply elem_of_nil in Hin].
Defined.

(** * Further properties of the call *)

Lemma consensus_row_shape item vendor cdf rows :
  mapM (consensus_row item vendor) cdf = Some rows →
  Forall (λ r, r_tsid r = item ∧ r_vendor r = vendor) rows.
Proof.
  revert rows. induction cdf as [|e cdf IH]; intros rows Hrows.
  - injection Hrows as <-. constructor.
  - simpl in Hrows.
    destruct (consensus_row item vendor e) as [row|] eqn:He; [|done].
    destruct (mapM _ cdf) as [rows'|]; [|done]. injection Hrows as <-.
    constructor; [|by apply IH].
    unfold consensus_row in He.
    repeat (match type of He with
            | (?o ≫= _) = Some _ => destruct o; [|done]
            end; simpl in He).
    by injection He as <-.
Qed.

Section call_facts.
Context (retrieve_data_vendor_id : string → Z).
Context (delete_accepted : list price_row → string → bool).
Context (w : weights_table).

Local Abbreviation V := (validator retrieve_data_vendor_id).
Local Abbreviation run := (cross_validate retrieve_data_vendor_id delete_accepted w).

(** The write back of an instrument touches the rows that carry both its
    identifier and the identity of the consensus vendor, and no other. *)
Lemma reconcile_keeps (P : price_row → Prop) `{∀ r, Decision (P r)} table tsid cdf :
  (∀ r, r_tsid r = tsid → r_vendor r = V → ¬ P r) →
  filter P (reconcile retrieve_data_vendor_id delete_accepted table tsid cdf) =
    filter P table.
Proof.
  intros HP.
  assert (∀ t, filter P (df_to_sql V cdf t tsid) = filter P t) as Happend.
  { intros t. unfold df_to_sql.
    destruct (mapM _ cdf) as [rows|] eqn:Hrows; [|done].
    rewrite filter_app, (filter_none P rows); [by rewrite app_nil_r|].
    eapply Forall_impl; [by apply consensus_row_shape in Hrows|].
    simpl. intros r [? ?]. by apply HP. }
  unfold reconcile, delete_sql_table_rows. cbv zeta.
  case_decide; [|apply Happend].
  assert (filter P (filter (λ r, ¬ (r_tsid r = tsid ∧ r_vendor r = V)) table) =
          filter P table) as Hdelete.
  { rewrite list_filter_filter. apply list_filter_iff. intros r.
    split; [tauto|]. intros Hr. split; [done|]. intros [? ?]. by apply (HP r). }
  destruct (delete_accepted table tsid); simpl; [|done].
  by rewrite Happend.
Qed.

Lemma cross_validate_keeps (P : price_row → Prop) `{∀ r, Decision (P r)} tsid_list :
  ∀ table,
  (∀ r, r_tsid r ∈ tsid_list → r_vendor r = V → ¬ P r) →
  filter P (final_table (run table tsid_list)) = filter P table.
Proof.
  induction tsid_list as [|tsid rest IH]; intros table HP; [done|].
  rewrite cross_validate_assemble.
  destruct (assemble _ _ _ _) as [printed [cdf|ex]]; simpl; [|done].
  rewrite IH.
  - apply reconcile_keeps. intros r <- ?. apply HP; [left | done].
  - intros r Hin ?. apply HP; [by right | done].
Qed.

End call_facts.

(** X5: the call changes nothing but the rows of the consensus vendor for
    the instruments of the list: the rows of every other vendor, and all
    the rows of the instruments outside the list, are in the table after
    the call as they were before it, in the same order, whatever the
    deletes do and whether the call raises or not. *)
Theorem only_listed_consensus_rows_change retrieve_data_vendor_id delete_accepted
    w table tsid_list :
  filter (λ r, r_vendor r ≠ validator retrieve_data_vendor_id ∨ r_tsid r ∉ tsid_list)
    (final_table (cross_validate retrieve_data_vendor_id delete_accepted w
                    table tsid_list)) =
  filter (λ r, r_vendor r ≠ validator retrieve_data_vendor_id ∨ r_tsid r ∉ tsid_list)
    table.
Proof.
  apply cross_validate_keeps. intros r Hin Hv [?|?]; done.
Qed.

(** X6: an instrument for which the table has no row is passed over: the
    call goes on with the instruments that follow, on the same table. *)
Theorem instrument_without_rows_is_skipped retrieve_data_vendor_id delete_accepted
    w table tsid rest :
  query_all_tsid_prices table tsid = [] →
  cross_validate retrieve_data_vendor_id delete_accepted w table (tsid :: rest) =
  cross_validate retrieve_data_vendor_id delete_accepted w table rest.
Proof.
  intros Hnone. rewrite cross_validate_cons. unfold consensus_rows, write.
  rewrite Hnone. simpl. by rewrite app_nil_r.
Qed.

Lemma instrument_without_rows_is_skipped_witness :
  cross_validate (λ _, 9) (λ _ _, true) zero_label_weights sample_table
    ["C"; "A"]%string =
  cross_validate (λ _, 9) (λ _ _, true) zero_label_weights sample_table
    ["A"%string].
Proof.
  apply (instrument_without_rows_is_skipped (λ _, 9) (λ _ _, true)
           zero_label_weights sample_table "C" ["A"%string]).
  reflexivity.
Defined.

Lemma NoDup_fmap_filter_one {A B} `{EqDecision B} (f : A → B) (d : B) (l : list A) :
  NoDup (f <$> l) → d ∈ f <$> l → length (filter (λ x, f x = d) l) = 1%nat.
Proof.
  intros Hnd (x & -> & Hx)%list_elem_of_fmap.
  pose proof (NoDup_fmap_filter_length f (f x) l Hnd) as Hle.
  assert (x ∈ filter (λ y, f y = f x) l) as Hin by (by apply list_elem_of_filter).
  destruct (filter _ l) as [|y k]; [by apply elem_of_nil in Hin|].
  simpl in *. lia.
Qed.

Lemma Forall2_elem_of_r {A B} (P : A → B → Prop) l k y :
  Forall2 P l k → y ∈ k → ∃ x, x ∈ l ∧ P x y.
Proof.
  induction 1 as [|x y' l k Hxy _ IH]; intros Hy; [by apply elem_of_nil in Hy|].
  apply elem_of_cons in Hy as [->|Hy].
  - exists x. split; [left | done].
  - destruct (IH Hy) as (x' & ? & ?). exists x'. split; [by right | done].
Qed.

Section coverage.
Context (retrieve_data_vendor_id : string → Z).
Context (delete_accepted : list price_row → string → bool).
Context (w : weights_table).

Local Abbreviation V := (validator retrieve_data_vendor_id).
Local Abbreviation excl := (source_id_exclude_list retrieve_data_vendor_id).
Local Abbreviation run := (cross_validate retrieve_data_vendor_id delete_accepted w).

(** The rows of the other vendors for an instrument are the same before
    and after the call. *)
Lemma observed_rows_kept table tsid_list tsid r :
  r_vendor r ≠ V →
  r ∈ query_all_tsid_prices (final_table (run table tsid_list)) tsid ↔
  r ∈ query_all_tsid_prices table tsid.
Proof.
  intros Hv.
  pose proof (cross_validate_keeps retrieve_data_vendor_id delete_accepted w
                (λ x, r_vendor x ≠ V) tsid_list table) as Hkeep.
  unfold query_all_tsid_prices. rewrite !list_elem_of_filter.
  assert (r ∈ final_table (run table tsid_list) ↔ r ∈ table) as Hin.
  { assert (∀ t : list price_row, r ∈ t ↔ r ∈ filter (λ x, r_vendor x ≠ V) t) as Hf.
    { intros t. rewrite list_elem_of_filter. tauto. }
    rewrite (Hf (final_table _)), (Hf table), Hkeep; [done|].
    intros x _ Hx Hne. done. }
  by rewrite Hin.
Qed.

Lemma period_row_votes tsid rows d c :
  period_row retrieve_data_vendor_id w tsid rows d = Ok c →
  ∀ col, col ∈ [r_open; r_high; r_low; r_close; r_volume] →
    field_vote excl w (candidates col rows) = Ok (col c).
Proof.
  unfold period_row. cbv zeta. intros H.
  apply bind_Ok in H as (o & Ho & H). apply bind_Ok in H as (h & Hh & H).
  apply bind_Ok in H as (l & Hl & H). apply bind_Ok in H as (cl & Hc & H).
  apply bind_Ok in H as (v & Hv & H). injection H as <-.
  intros col Hcol.
  repeat (apply elem_of_cons in Hcol as [->|Hcol]; [done|]).
  by apply elem_of_nil in Hcol.
Qed.

End coverage.

(** X10: after a call that has come to its end with its deletes carried
    out, every period for which an instrument of the list has a row of
    another vendor has exactly one row of the consensus vendor. *)
Theorem every_observed_period_gets_one_row retrieve_data_vendor_id delete_accepted
    w table tsid_list r :
  (∀ t item, delete_accepted t item = true) →
  raised (cross_validate retrieve_data_vendor_id delete_accepted w table tsid_list) = None →
  r ∈ table →
  r_tsid r ∈ tsid_list →
  r_vendor r ≠ validator retrieve_data_vendor_id →
  length
    (filter (λ c, r_tsid c = r_tsid r ∧ r_date c = r_date r ∧
                  r_vendor c = validator retrieve_data_vendor_id)
       (final_table (cross_validate retrieve_data_vendor_id delete_accepted w
                       table tsid_list))) = 1%nat.
Proof.
  intros Hacc Hraised Hr Hin Hv.
  destruct (run_settles retrieve_data_vendor_id w delete_accepted tsid_list table
              Hacc Hraised (r_tsid r) Hin) as (rows & Hrows & Hperm).
  set (final := final_table _) in *.
  destruct (consensus_rows_shape _ _ _ _ _ Hrows) as [Hdates _].
  replace (filter _ final) with
    (filter (λ c, r_date c = r_date r)
       (filter (λ c, r_vendor c = validator retrieve_data_vendor_id)
          (query_all_tsid_prices final (r_tsid r)))).
  - rewrite Hperm. apply NoDup_fmap_filter_one.
    + rewrite Hdates. apply unique_NoDup.
    + rewrite Hdates, unique_elem_of. apply list_elem_of_fmap. exists r.
      split; [done|].
      apply (observed_rows_kept retrieve_data_vendor_id delete_accepted w); [done|].
      by apply list_elem_of_filter.
  - unfold query_all_tsid_prices. rewrite !list_filter_filter.
    apply list_filter_iff. intros c. tauto.
Qed.

Lemma every_observed_period_gets_one_row_witness :
  length
    (filter (λ c, r_tsid c = "A"%string ∧ r_date c = "d2"%string ∧
                  r_vendor c = validator (λ _, 9%Z))
       (final_table (cross_validate (λ _, 9%Z) (λ _ _, true) zero_label_weights
                       sample_table ["A"; "B"]%string))) = 1%nat.
Proof.
  apply (every_observed_period_gets_one_row (λ _, 9) (λ _ _, true)
           zero_label_weights sample_table ["A"; "B"]%string
           (PriceRow "A" "d2" 1 (q 10) (q 12) (q 9) (q 11) (q 90))).
  - intros t item. reflexivity.
  - vm_compute. reflexivity.
  - do 3 right. left.
  - left.
  - vm_compute. discriminate.
Defined.

Lemma not_excluded_iff retrieve_data_vendor_id (id : Z) :
  LInt id ∉ source_id_exclude_list retrieve_data_vendor_id ↔
  id ≠ validator retrieve_data_vendor_id.
Proof.
  change (source_id_exclude_list retrieve_data_vendor_id)
    with [LInt (validator retrieve_data_vendor_id)].
  rewrite list_elem_of_singleton. split.
  - intros H ->. by apply H.
  - intros H [= ->]. by apply H.
Qed.

(** X11: after a call that has come to its end with its deletes carried
    out, each of the four prices (open, high, low, close) of each row of
    the consensus vendor, for an instrument of the list, is the largest
    value that the rows of the other vendors hold in that column for the
    same instrument and period, when these values are numbers: one of the
    rows holds it and none holds more. *)
Theorem consensus_row_holds_the_largest_values retrieve_data_vendor_id
    delete_accepted w table tsid_list c (col : price_row → price) :
  (∀ t item, delete_accepted t item = true) →
  raised (cross_validate retrieve_data_vendor_id delete_accepted w table tsid_list) = None →
  c ∈ final_table (cross_validate retrieve_data_vendor_id delete_accepted w
                     table tsid_list) →
  r_tsid c ∈ tsid_list →
  r_vendor c = validator retrieve_data_vendor_id →
  col ∈ [r_open; r_high; r_low; r_close] →
  (∀ r, r ∈ table → r_tsid r = r_tsid c → r_date r = r_date c →
        r_vendor r ≠ validator retrieve_data_vendor_id → col r ≠ NaN) →
  (∃ r, r ∈ table ∧ r_tsid r = r_tsid c ∧ r_date r = r_date c ∧
        r_vendor r ≠ validator retrieve_data_vendor_id ∧ col r = col c) ∧
  (∀ r, r ∈ table → r_tsid r = r_tsid c → r_date r = r_date c →
        r_vendor r ≠ validator retrieve_data_vendor_id →
        py_le (col r) (col c) = true).
Proof.
  intros Hacc Hraised Hc Htsid Hvendor Hcol Hnum.
  destruct (run_settles retrieve_data_vendor_id w delete_accepted tsid_list table
              Hacc Hraised (r_tsid c) Htsid) as (rows & Hrows & Hperm).
  pose proof (observed_rows_kept retrieve_data_vendor_id delete_accepted w
                table tsid_list (r_tsid c)) as Hkept.
  set (final := final_table _) in *.
  set (df := query_all_tsid_prices final (r_tsid c)) in *.
  assert (c ∈ rows) as Hcrows.
  { rewrite <-Hperm. apply list_elem_of_filter. split; [done|].
    by apply list_elem_of_filter. }
  unfold consensus_rows in Hrows. apply traverse_Forall2 in Hrows.
  destruct (Forall2_elem_of_r _ _ _ _ Hrows Hcrows) as (d & _ & Hd).
  destruct (period_row_Ok _ _ _ _ _ _ Hd) as (_ & Hdate & _).
  assert (col ∈ [r_open; r_high; r_low; r_close; r_volume]) as Hcol'.
  { repeat (apply elem_of_cons in Hcol as [->|Hcol];
              [repeat first [left | right]|]).
    by apply elem_of_nil in Hcol. }
  pose proof (period_row_votes retrieve_data_vendor_id w _ _ _ _ Hd col Hcol') as Hvote.
  apply field_vote_Ok_numbers in Hvote as (_ & Hin & Hub).
  - split.
    + destruct Hin as (sd & Hsd & Hout & Hval).
      apply list_elem_of_fmap in Hsd as (r & -> & Hr). simpl in *.
      apply not_excluded_iff in Hout.
      apply list_elem_of_filter in Hr as [Hrd Hr].
      apply Hkept in Hr; [|done]. apply list_elem_of_filter in Hr as [? ?].
      exists r. repeat split; [done | done | congruence | done | done].
    + intros r Hr Ht Hdt Hv.
      apply (Hub (LInt (r_vendor r), col r)); [|by apply not_excluded_iff].
      apply list_elem_of_fmap. exists r. split; [done|].
      apply list_elem_of_filter. split; [congruence|].
      apply Hkept; [done|]. by apply list_elem_of_filter.
  - intros sd Hsd Hout.
    apply list_elem_of_fmap in Hsd as (r & -> & Hr). simpl in *.
    apply not_excluded_iff in Hout.
    apply list_elem_of_filter in Hr as [Hrd Hr].
    apply Hkept in Hr; [|done]. apply list_elem_of_filter in Hr as [? ?].
    apply Hnum; [done | done | congruence | done].
Qed.

Lemma consensus_row_holds_the_largest_values_witness :
  let c := PriceRow "A" "d1" 9 (q 12) (q 11) (q 9) (q 10) (q 100) in
  (∃ r, r ∈ sample_table ∧ r_tsid r = r_tsid c ∧ r_date r = r_date c ∧
        r_vendor r ≠ validator (λ _, 9) ∧ r_open r = r_open c) ∧
  (∀ r, r ∈ sample_table → r_tsid r = r_tsid c → r_date r = r_date c →
        r_vendor r ≠ validator (λ _, 9) → py_le (r_open r) (r_open c) = true).
Proof.
  apply (consensus_row_holds_the_largest_values (λ _, 9) (λ _ _, true)
           zero_label_weights sample_table ["A"; "B"]%string
           (PriceRow "A" "d1" 9 (q 12) (q 11) (q 9) (q 10) (q 100)) r_open).
  - intros t item. reflexivity.
  - vm_compute. reflexivity.
  - vm_compute. do 4 right. left.
  - left.
  - reflexivity.
  - left.
  - intros r Hr _ _ _.
    repeat (apply elem_of_cons in Hr as [->|Hr]; [discriminate|]).
    by apply elem_of_nil in Hr.
Defined.

(** * The order of the instruments *)

Section instrument_order.
Context (retrieve_data_vendor_id : string → Z).
Context (delete_accepted : list price_row → string → bool).
Context (w : weights_table).
Context (Haccepted : ∀ t item, delete_accepted t item = true).

Local Abbreviation V := (validator retrieve_data_vendor_id).
Local Abbreviation crows := (consensus_rows retrieve_data_vendor_id w).
Local Abbreviation run := (cross_validate retrieve_data_vendor_id delete_accepted w).
Local Abbreviation wr := (write retrieve_data_vendor_id delete_accepted).
Local Abbreviation del :=
  (λ (tsid : string) (t : list price_row),
     filter (λ r, ¬ (r_tsid r = tsid ∧ r_vendor r = V)) t).

(** With the delete carried out, the iteration of an instrument removes
    its rows of the consensus vendor and appends the new ones. *)
Lemma write_delete_append table tsid rows :
  wr table tsid rows = del tsid table ++ rows.
Proof.
  unfold write. rewrite Haccepted. case_decide as Hsrc; [done|].
  f_equal. symmetry. apply filter_all, Forall_forall. intros r Hr [Ht Hv].
  apply Hsrc, unique_elem_of, list_elem_of_fmap. exists r. split; [done|].
  by apply list_elem_of_filter.
Qed.

(** Two tables with the same frame for every instrument and the same rows
    are taken by a call to two such tables, with the same exception or
    none. *)
Lemma run_same_frames tsid_list : ∀ t t',
  (∀ tsid, query_all_tsid_prices t tsid = query_all_tsid_prices t' tsid) →
  t ≡ₚ t' →
  raised (run t tsid_list) = raised (run t' tsid_list) ∧
  final_table (run t tsid_list) ≡ₚ final_table (run t' tsid_list).
Proof.
  induction tsid_list as [|item rest IH]; intros t t' Hframes Hperm; [done|].
  rewrite !cross_validate_cons, <-Hframes.
  destruct (crows item (query_all_tsid_prices t item)) as [rows|ex] eqn:Hrows;
    [|done].
  destruct (consensus_rows_shape _ _ _ _ _ Hrows) as [_ Hshape].
  apply IH.
  - intros tsid. destruct (decide (tsid = item)) as [->|Hne].
    + rewrite !write_frame by auto. by rewrite Hframes.
    + by rewrite !write_other.
  - rewrite !write_delete_append. by rewrite Hperm.
Qed.

Lemma run_swap item1 item2 rest table :
  raised (run table (item1 :: item2 :: rest)) = None →
  raised (run table (item2 :: item1 :: rest)) = None ∧
  final_table (run table (item2 :: item1 :: rest)) ≡ₚ
    final_table (run table (item1 :: item2 :: rest)).
Proof.
  destruct (decide (item1 = item2)) as [->|Hne]; [done|].
  rewrite (cross_validate_cons _ _ _ table item1).
  destruct (crows item1 (query_all_tsid_prices table item1)) as [rows1|]
    eqn:Hrows1; [|done].
  destruct (consensus_rows_shape _ _ _ _ _ Hrows1) as [_ Hshape1].
  rewrite (cross_validate_cons _ _ _ _ item2).
  rewrite (write_other _ _ table item1 rows1 item2) by done.
  destruct (crows item2 (query_all_tsid_prices table item2)) as [rows2|]
    eqn:Hrows2; [|done].
  destruct (consensus_rows_shape _ _ _ _ _ Hrows2) as [_ Hshape2].
  rewrite (cross_validate_cons _ _ _ table item2), Hrows2.
  rewrite (cross_validate_cons _ _ _ _ item1).
  rewrite (write_other _ _ table item2 rows2 item1) by done.
  rewrite Hrows1. intros Hraised.
  destruct (run_same_frames rest
              (wr (wr table item2 rows2) item1 rows1)
              (wr (wr table item1 rows1) item2 rows2)) as [Hr Hp].
  - intros tsid.
    destruct (decide (tsid = item1)) as [->|Hne1];
      [|destruct (decide (tsid = item2)) as [->|Hne2]].
    + rewrite write_frame by auto.
      rewrite (write_other _ _ _ item2 rows2 item1) by done.
      rewrite (write_other _ _ _ item2 rows2 item1) by done.
      by rewrite write_frame by auto.
    + rewrite (write_other _ _ _ item1 rows1 item2) by done.
      rewrite write_frame by auto. rewrite write_frame by auto.
      by rewrite (write_other _ _ _ item1 rows1 item2) by done.
    + by rewrite !write_other by done.
  - rewrite !write_delete_append, !filter_app.
    rewrite (filter_all _ rows1), (filter_all _ rows2).
    + rewrite !list_filter_filter.
      rewrite (list_filter_iff
                 (λ r, ¬ (r_tsid r = item2 ∧ r_vendor r = V) ∧
                       ¬ (r_tsid r = item1 ∧ r_vendor r = V))
                 (λ r, ¬ (r_tsid r = item1 ∧ r_vendor r = V) ∧
                       ¬ (r_tsid r = item2 ∧ r_vendor r = V)) table)
        by (intros r; tauto).
      rewrite <-!app_assoc. f_equiv. apply Permutation_app_comm.
    + eapply Forall_impl; [exact Hshape2|]. simpl. intros r [? _] [? _]. congruence.
    + eapply Forall_impl; [exact Hshape1|]. simpl. intros r [? _] [? _]. congruence.
  - split; [congruence | done].
Qed.

Lemma run_Permutation tsid_list tsid_list' :
  tsid_list ≡ₚ tsid_list' → ∀ table,
  raised (run table tsid_list) = None →
  raised (run table tsid_list') = None ∧
  final_table (run table tsid_list') ≡ₚ final_table (run table tsid_list).
Proof.
  induction 1 as [|item l l' _ IH|item1 item2 l|l l' l'' _ IH1 _ IH2];
    intros table Hraised.
  - done.
  - rewrite !cross_validate_cons in *.
    destruct (crows item (query_all_tsid_prices table item)); [|done].
    by apply IH.
  - by apply run_swap.
  - destruct (IH1 _ Hraised) as [Hr1 Hp1].
    destruct (IH2 _ Hr1) as [Hr2 Hp2].
    split; [done|]. by rewrite Hp2.
Qed.

End instrument_order.

(** X12: the order of the instruments in the list does not matter: when
    the deletes are carried out and the call on a list comes to its end,
    the call on the same instruments in another order comes to its end too
    and leaves the same rows in the table. *)
Theorem instrument_order_is_irrelevant retrieve_data_vendor_id delete_accepted w
    table tsid_list tsid_list' :
  (∀ t item, delete_accepted t item = true) →
  tsid_list ≡ₚ tsid_list' →
  raised (cross_validate retrieve_data_vendor_id delete_accepted w table tsid_list) = None →
  raised (cross_validate retrieve_data_vendor_id delete_accepted w table tsid_list') = None ∧
  final_table (cross_validate retrieve_data_vendor_id delete_accepted w table tsid_list')
    ≡ₚ final_table (cross_validate retrieve_data_vendor_id delete_accepted w table tsid_list).
Proof.
  intros Hacc Hperm Hraised. by apply run_Permutation.
Qed.

Lemma instrument_order_is_irrelevant_witness :
  raised (cross_validate (λ _, 9) (λ _ _, true) zero_label_weights sample_table
            ["B"; "A"]%string) = None ∧
  final_table (cross_validate (λ _, 9) (λ _ _, true) zero_label_weights sample_table
                 ["B"; "A"]%string)
    ≡ₚ final_table (cross_validate (λ _, 9) (λ _ _, true) zero_label_weights
                      sample_table ["A"; "B"]%string).
Proof.
  apply instrument_order_is_irrelevant.
  - intros t item. reflexivity.
  - apply Permutation_swap.
  - vm_compute. reflexivity.
Defined.

(** * The stored consensus rows and the assembly *)

Section stored_rows.
Context (retrieve_data_vendor_id : string → Z) (w : weights_table).

Local Abbreviation excl := (source_id_exclude_list retrieve_data_vendor_id).
Local Abbreviation obs := (observed retrieve_data_vendor_id).

Lemma period_cells_observed rows rows' :
  obs rows = obs rows' →
  period_cells excl w rows = period_cells excl w rows'.
Proof.
  intros Hobs. unfold period_cells.
  assert (∀ c, field_vote excl w (candidates c rows) =
               field_vote excl w (candidates c rows')) as Hc.
  { intros c. rewrite <-(field_vote_surviving excl w (candidates c rows)).
    rewrite <-(field_vote_surviving excl w (candidates c rows')).
    by rewrite !surviving_candidates, Hobs. }
  by rewrite !Hc.
Qed.

Lemma assemble_periods table tsid :
  assemble retrieve_data_vendor_id w table tsid =
    ([], es ← traverse (period_entry excl w (query_all_tsid_prices table tsid))
                (unique (r_date <$> query_all_tsid_prices table tsid));
         Ok es).
Proof.
  unfold assemble.
  destruct (assemble_from_periods retrieve_data_vendor_id w None table tsid)
    as (pdf' & ->).
  by destruct (traverse _ _).
Qed.

End stored_rows.

(** X13: the rows of the consensus vendor that the table holds have no
    vote: two tables that list the same periods for an instrument and hold
    the same rows of the other vendors for it give the same consensus
    frame, or the same exception, whatever their rows of the consensus
    vendor hold. *)
Theorem stored_consensus_rows_have_no_vote retrieve_data_vendor_id w
    table table' tsid :
  observed retrieve_data_vendor_id (query_all_tsid_prices table tsid) =
    observed retrieve_data_vendor_id (query_all_tsid_prices table' tsid) →
  unique (r_date <$> query_all_tsid_prices table tsid) =
    unique (r_date <$> query_all_tsid_prices table' tsid) →
  assemble retrieve_data_vendor_id w table tsid =
    assemble retrieve_data_vendor_id w table' tsid.
Proof.
  intros Hobs Hdates. rewrite !assemble_periods, <-Hdates.
  rewrite (traverse_ext _
             (period_entry (source_id_exclude_list retrieve_data_vendor_id) w
                (query_all_tsid_prices table' tsid))); [done|].
  intros d _. unfold period_entry.
  rewrite (period_cells_observed retrieve_data_vendor_id w
             (block (query_all_tsid_prices table tsid) d)
             (block (query_all_tsid_prices table' tsid) d)); [done|].
  by rewrite !observed_block, Hobs.
Qed.

Lemma stored_consensus_rows_have_no_vote_witness :
  assemble (λ _, 9) zero_label_weights sample_table "A" =
  assemble (λ _, 9) zero_label_weights
    [ PriceRow "A" "d1" 1 (q 10) (q 11) (q 9) (q 10) (q 100);
      PriceRow "A" "d1" 9 (q 99) (q 99) (q 1) (q 50) (q 7);
      PriceRow "A" "d1" 2 (q 12) (q 11) (q 9) (q 10) (q 100);
      PriceRow "A" "d2" 1 (q 10) (q 12) (q 9) (q 11) (q 90);
      PriceRow "A" "d2" 9 (q 0) (q 0) (q 0) (q 0) (q 0) ] "A".
Proof.
  apply stored_consensus_rows_have_no_vote; vm_compute; reflexivity.
Defined.

(** * Unreadable weights and first calls *)

(** X14: a row of another vendor whose weight cannot be read stops the
    call at its instrument: the call raises there, nothing is written for
    that instrument or for those that follow, and the table is left as it
    was when the instrument was reached. *)
Theorem unreadable_vendor_stops_the_call retrieve_data_vendor_id delete_accepted w
    table tsid rest r :
  r ∈ table →
  r_tsid r = tsid →
  r_vendor r ≠ validator retrieve_data_vendor_id →
  ¬ is_Ok (read_weight w (LInt (r_vendor r))) →
  ∃ ex,
    cross_validate retrieve_data_vendor_id delete_accepted w table (tsid :: rest) =
      Outcome table [] (Some ex).
Proof.
  intros Hr Htsid Hv Hread. rewrite cross_validate_cons.
  destruct (consensus_rows _ _ _ _) as [rows|ex] eqn:Hrows; [|by exists ex].
  exfalso. unfold consensus_rows in Hrows.
  destruct (traverse_Ok_elem _ _ _ (r_date r) Hrows) as (c & Hc & _).
  { apply unique_elem_of, list_elem_of_fmap. exists r. split; [done|].
    by apply list_elem_of_filter. }
  pose proof (period_row_votes _ _ _ _ _ _ Hc r_open) as Hvote.
  unfold field_vote in Hvote.
  apply bind_Ok in Hvote as (fc & Hfc & _); [|left].
  apply Hread.
  apply (consensus_loop_Ok_readable _ _ _ _ _ Hfc (LInt (r_vendor r), r_open r)).
  - apply list_elem_of_fmap. exists r. split; [done|].
    apply list_elem_of_filter. split; [done|]. by apply list_elem_of_filter.
  - by apply not_excluded_iff.
Qed.

Lemma unreadable_vendor_stops_the_call_witness :
  ∃ ex,
    cross_validate (λ _, 9) (λ _ _, true) main_weights sample_table
      ["A"; "B"]%string = Outcome sample_table [] (Some ex).
Proof.
  apply (unreadable_vendor_stops_the_call (λ _, 9) (λ _ _, true) main_weights
           sample_table "A" ["B"%string]
           (PriceRow "A" "d1" 2 (q 12) (q 11) (q 9) (q 10) (q 100))).
  - do 2 right. left.
  - reflexivity.
  - vm_compute. discriminate.
  - intros [x Hx]. vm_compute in Hx. discriminate.
Defined.


